(** * pycycle.cea.new_thermo: the thermodynamics group and its wiring

    A shallow embedding of [src/pycycle/cea/new_thermo.py].  The file is an
    OpenMDAO model description: two [om.Group] subclasses, [Properties] and
    [Thermo], whose [setup] methods register subsystems, promote variables
    and connect outputs to inputs.  [setup] is embedded as a computation in
    a state-and-error monad over the group under construction; Python
    exceptions are values of [PyError]. *)

From stdpp Require Import base option list strings gmap.
From Stdlib Require Import ZArith QArith Qabs Lia.

Open Scope string_scope.
Open Scope Z_scope.

(** ** Python values, exceptions and results *)

(** The Python values that reach [Thermo.setup] through its options:
    strings, integers, a thermo data module such as
    [species_data.co2_co_o2], and a dict such as [{'CO':1,'CO2':1,'O2':1}]. *)
Inductive pyval : Type :=
| PStr (s : string)
| PInt (z : Z)
| PModule (name : string)
| PDict (d : gmap string Z).

(** Exceptions.  The first four are raised by the Python runtime or by the
    OpenMDAO options dictionary; the last five are the typed failures of
    the engine's error taxonomy. *)
Inductive PyError : Type :=
| KeyError (key : string)
| UnboundLocalError (name : string)
| OptionNotSet (name : string)
| OptionValueError (name : string) (value : string)
| InvalidCompositionError
| ConvergenceError
| SingularMatrixError
| OutOfRangeError (species : string)
| PropertyComputationError.

Definition is_taxonomy_error (e : PyError) : bool :=
  match e with
  | InvalidCompositionError | ConvergenceError | SingularMatrixError
  | OutOfRangeError _ | PropertyComputationError => true
  | _ => false
  end.

Inductive result (A : Type) : Type :=
| Ok (a : A)
| Err (e : PyError).
Arguments Ok {A} a.
Arguments Err {A} e.

Definition is_ok {A} (r : result A) : bool :=
  match r with Ok _ => true | Err _ => false end.

#[global] Instance result_ret : MRet result := fun _ a => Ok a.
#[global] Instance result_bind : MBind result := fun _ _ f r =>
  match r with Ok a => f a | Err e => Err e end.

(** [d[k]] on a Python dict. *)
Definition getitem {V} (d : gmap string V) (k : string) : result V :=
  match d !! k with
  | Some v => Ok v
  | None => Err (KeyError k)
  end.

(** [v == s] for a string literal [s]. *)
Definition eq_str (v : pyval) (s : string) : bool :=
  match v with
  | PStr s' => bool_decide (s' = s)
  | _ => false
  end.

(** ** The OpenMDAO model under construction *)

(** The object [cea.species_data.Thermo(...)] builds.  [setup] reads one
    attribute of it, [num_element]; the two constructor arguments are kept. *)
Record ThermoData : Type := {
  thermo_data : pyval;
  init_reacts : pyval;
  num_element : nat
}.

(** The systems [new_thermo.py] instantiates, with their constructor
    arguments.  [Properties] is itself a group: instantiating it records
    its [thermo] option, and its own [setup] runs when the model is set up. *)
Inductive System : Type :=
| ChemEq (thermo : ThermoData) (mode : string)
| PropsRHS (thermo : ThermoData)
| LinearSystemComp (size : nat)
| PropsCalcs (thermo : ThermoData)
| EngUnitProps (thermo : ThermoData) (fl_name : string)
| Properties (thermo : ThermoData).

Record Subsystem : Type := {
  sub_name : string;
  sub_system : System;
  promotes_inputs : list string;
  promotes_outputs : list string
}.

(** A group: its subsystems in the order they were added, its connections
    [(source, target)] in the order they were made, and its input defaults
    [(name, value, units)]. *)
Record Group : Type := {
  subsystems : list Subsystem;
  connections : list (string * string);
  input_defaults : list (string * Z * string)
}.

Definition empty_group : Group :=
  {| subsystems := []; connections := []; input_defaults := [] |}.

(** ** The setup monad: the group is threaded, exceptions abort *)

Definition Setup (A : Type) : Type := Group → result (A * Group).

#[global] Instance setup_ret : MRet Setup := fun _ a g => Ok (a, g).
#[global] Instance setup_bind : MBind Setup := fun _ _ f m g =>
  match m g with
  | Ok (a, g') => f a g'
  | Err e => Err e
  end.

Definition raise {A} (e : PyError) : Setup A := fun _ => Err e.

Definition lift {A} (r : result A) : Setup A := fun g =>
  match r with Ok a => Ok (a, g) | Err e => Err e end.

(** The group a [setup] leaves behind when it starts from an empty one. *)
Definition built (m : Setup ()) : result Group :=
  match m empty_group with
  | Ok (_, g) => Ok g
  | Err e => Err e
  end.

(** [self.add_subsystem(name, subsys, promotes_inputs=.., promotes_outputs=..)].
    The subsystem is appended.  The library refuses a name the group
    already uses; that check is not part of this embedding, which matters
    only on a group that already holds one of the names being added. *)
Definition add_subsystem (name : string) (s : System)
    (pin pout : list string) : Setup () := fun g =>
  Ok ((), {| subsystems := subsystems g ++
                 [{| sub_name := name; sub_system := s;
                     promotes_inputs := pin; promotes_outputs := pout |}];
             connections := connections g;
             input_defaults := input_defaults g |}).

(** [self.connect(src, tgt)] for one target. *)
Definition connect (src tgt : string) : Setup () := fun g =>
  Ok ((), {| subsystems := subsystems g;
             connections := connections g ++ [(src, tgt)];
             input_defaults := input_defaults g |}).

(** [self.connect(src, [tgt1, tgt2, ...])]: one connection per target. *)
Fixpoint connect_all (src : string) (tgts : list string) : Setup () :=
  match tgts with
  | [] => mret ()
  | t :: ts => connect src t ;; connect_all src ts
  end.

(** [self.set_input_defaults(name, val, units=..)] *)
Definition set_input_defaults (name : string) (val : Z) (units : string)
    : Setup () := fun g =>
  Ok ((), {| subsystems := subsystems g;
             connections := connections g;
             input_defaults := input_defaults g ++ [(name, val, units)] |}).

(** ** [class Properties(om.Group)] *)

Definition Properties_setup (thermo : ThermoData) : Setup () :=
  let num_element := num_element thermo in
  add_subsystem "TP2ls" (PropsRHS thermo) ["T"; "n"; "n_moles"; "b0"] [] ;;
  let ne1 := (num_element + 1)%nat in
  add_subsystem "ls2t" (LinearSystemComp ne1) [] [] ;;
  add_subsystem "ls2p" (LinearSystemComp ne1) [] [] ;;
  add_subsystem "tp2props" (PropsCalcs thermo)
    ["n"; "n_moles"; "T"; "P"]
    ["h"; "S"; "gamma"; "Cp"; "Cv"; "rho"; "R"] ;;
  connect_all "TP2ls.lhs_TP" ["ls2t.A"; "ls2p.A"] ;;
  connect "TP2ls.rhs_T" "ls2t.b" ;;
  connect "TP2ls.rhs_P" "ls2p.b" ;;
  connect "ls2t.x" "tp2props.result_T" ;;
  connect "ls2p.x" "tp2props.result_P".

(** The group [Properties(thermo=..)] becomes once set up. *)
Definition Properties_group (thermo : ThermoData) : Group :=
  match Properties_setup thermo empty_group with
  | Ok (_, g) => g
  | Err _ => empty_group
  end.

(** ** [class Thermo(om.Group)] *)

(** The options [Thermo.initialize] declares.  [fl_name] and [mode] have
    defaults; [thermo_dict] has none and must be given. *)
Record ThermoOptions : Type := {
  opt_fl_name : string;
  opt_mode : string;
  opt_thermo_dict : option (gmap string pyval)
}.

Definition Thermo_initialize : ThermoOptions :=
  {| opt_fl_name := "flow"; opt_mode := "total_TP"; opt_thermo_dict := None |}.

(** The [values=] of the ['mode'] declaration. *)
Definition mode_values : list string :=
  ["total_TP"; "total_SP"; "total_hP"; "static_MN"; "static_A"; "static_Ps"].

(** Setting an option: ['mode'] is checked against its declared values. *)
Definition set_mode (m : string) (o : ThermoOptions) : result ThermoOptions :=
  if bool_decide (m ∈ mode_values)
  then Ok {| opt_fl_name := opt_fl_name o; opt_mode := m;
             opt_thermo_dict := opt_thermo_dict o |}
  else Err (OptionValueError "mode" m).

Definition set_fl_name (s : string) (o : ThermoOptions) : ThermoOptions :=
  {| opt_fl_name := s; opt_mode := opt_mode o;
     opt_thermo_dict := opt_thermo_dict o |}.

Definition set_thermo_dict (d : gmap string pyval) (o : ThermoOptions)
    : ThermoOptions :=
  {| opt_fl_name := opt_fl_name o; opt_mode := opt_mode o;
     opt_thermo_dict := Some d |}.

(** [self.options['thermo_dict']]: an option without a default that was
    never set cannot be read. *)
Definition get_thermo_dict (o : ThermoOptions) : result (gmap string pyval) :=
  match opt_thermo_dict o with
  | Some d => Ok d
  | None => Err (OptionNotSet "thermo_dict")
  end.

(** The local variables of [Thermo.setup] that only some branches assign.
    [None] is an unbound local. *)
Record Locals : Type := {
  cea_data : option ThermoData;
  base_thermo : option System;
  in_vars : option (list string);
  out_vars : option (list string)
}.

Definition no_locals : Locals :=
  {| cea_data := None; base_thermo := None; in_vars := None; out_vars := None |}.

(** Reading a local variable. *)
Definition load {A} (name : string) (v : option A) : Setup A :=
  match v with
  | Some a => mret a
  | None => raise (UnboundLocalError name)
  end.

Section ThermoSetup.

(** The constructor [cea.species_data.Thermo(thermo_data, elements)] lives
    in another module; it is a parameter of the embedding, taken to return
    an object for every pair of arguments (what it does on arguments that
    are not species data is not modelled). *)
Variable species_data_Thermo : pyval → pyval → ThermoData.

(** The [if method == 'CEA' ... elif ... elif ...] statement: what each
    branch leaves in the local variables. *)
Definition method_branch (method : pyval) (therm_dict : gmap string pyval)
    : result Locals :=
  if eq_str method "CEA" then
    td ← getitem therm_dict "thermo_data" ;
    el ← getitem therm_dict "elements" ;
    let cea_data := species_data_Thermo td el in
    let base_thermo := ChemEq cea_data "T" in
    let in_vars := ["b0"; "T"; "P"] in
    let out_vars := ["n"; "n_moles"] in
    mret {| cea_data := Some cea_data; base_thermo := Some base_thermo;
            in_vars := Some in_vars; out_vars := Some out_vars |}
  else if eq_str method "Ideal" then
    mret no_locals
  else if eq_str method "Tabular" then
    mret no_locals
  else
    mret no_locals.

Definition Thermo_setup (options : ThermoOptions) : Setup () :=
  d ← lift (get_thermo_dict options) ;
  method ← lift (getitem d "method") ;
  let mode := opt_mode options in
  therm_dict ← lift (get_thermo_dict options) ;
  locals ← lift (method_branch method therm_dict) ;
  base_thermo ← load "base_thermo" (base_thermo locals) ;
  in_vars ← load "in_vars" (in_vars locals) ;
  out_vars ← load "out_vars" (out_vars locals) ;
  add_subsystem "thermo_TP" base_thermo in_vars out_vars ;;
  cea_data ← load "cea_data" (cea_data locals) ;
  add_subsystem "props" (Properties cea_data)
    ["T"; "P"; "n"; "n_moles"; "b0"]
    ["gamma"; "Cp"; "Cv"; "rho"; "R"; "S"; "h"] ;;
  let fl_name := opt_fl_name options in
  add_subsystem "flow" (EngUnitProps cea_data fl_name)
    ["T"; "P"; "h"; "S"; "gamma"; "Cp"; "Cv"; "rho"; "n"; "n_moles"; "R"; "b0"]
    [fl_name ++ ":*"] ;;
  set_input_defaults "P" 1 "bar" ;;
  set_input_defaults "T" 273 "degK".

End ThermoSetup.

(** ** Names: paths, promoted names, and who feeds whom *)

(** [strip_prefix p s] is [Some r] when [s = p ++ r]. *)
Fixpoint strip_prefix (p s : string) : option string :=
  match p, s with
  | EmptyString, _ => Some s
  | String a p', String b s' =>
      if bool_decide (a = b) then strip_prefix p' s' else None
  | String _ _, EmptyString => None
  end.

(** The local variable name behind a path ["sub.var"] of subsystem [s]. *)
Definition local_name (s : Subsystem) (path : string) : option string :=
  strip_prefix (sub_name s ++ ".") path.

(** The connections that end in an input of [s], as (local input, source). *)
Definition connected_inputs (g : Group) (s : Subsystem) : list (string * string) :=
  omap (λ c, v ← local_name s c.2 ; Some (v, c.1)) (connections g).

(** Every input of [s] this group wires: promoted ones, then connected ones. *)
Definition wired_inputs (g : Group) (s : Subsystem) : list string :=
  promotes_inputs s ++ (connected_inputs g s).*1.

(** The group-level name an input [v] of [s] reads from: its own name when
    promoted, otherwise the source of the connection that targets it. *)
Definition input_source (g : Group) (s : Subsystem) (v : string) : option string :=
  if bool_decide (v ∈ promotes_inputs s) then Some v
  else snd <$> find (λ c, bool_decide (c.1 = v)) (connected_inputs g s).

(** All targets a source is connected to. *)
Definition consumers (g : Group) (src : string) : list string :=
  snd <$> filter (λ c, c.1 = src) (connections g).

(** The source connected to a target, if any. *)
Definition source_of (g : Group) (tgt : string) : option string :=
  fst <$> find (λ c, bool_decide (c.2 = tgt)) (connections g).

Definition find_subsystem (g : Group) (name : string) : option Subsystem :=
  find (λ s, bool_decide (sub_name s = name)) (subsystems g).

(** The outputs a group promotes to its own level. *)
Definition promoted_outputs (g : Group) : list string :=
  s ← subsystems g ; promotes_outputs s.

(** ** Shapes of the variables that are connected *)

(** The shapes of the inputs the linear solver component declares:
    [LinearSystemComp(size=k)] has a [k x k] matrix [A] and a vector [b]. *)
Definition input_shape (s : System) (v : string) : option (list nat) :=
  match s with
  | LinearSystemComp size =>
      if bool_decide (v = "A") then Some [size; size]
      else if bool_decide (v = "b") then Some [size]
      else None
  | _ => None
  end.

(** Modelled from the spec: the output declarations of [PropsRHS]
    (pycycle/cea/props_rhs.py is missing): the matrix [lhs_TP] is square of
    size num_elements+1 and [rhs_T], [rhs_P] each have length
    num_elements+1.  [LinearSystemComp(size=k)] has a solution [x] of
    length [k]. *)
Definition output_shape (s : System) (v : string) : option (list nat) :=
  match s with
  | PropsRHS thermo =>
      let ne1 := (num_element thermo + 1)%nat in
      if bool_decide (v = "lhs_TP") then Some [ne1; ne1]
      else if bool_decide (v = "rhs_T") then Some [ne1]
      else if bool_decide (v = "rhs_P") then Some [ne1]
      else None
  | LinearSystemComp size =>
      if bool_decide (v = "x") then Some [size] else None
  | _ => None
  end.

(** The shape of a connection endpoint given by its path. *)
Definition shape_at (shape : System → string → option (list nat))
    (g : Group) (path : string) : option (list nat) :=
  match omap (λ s, v ← local_name s path ; shape (sub_system s) v)
             (subsystems g) with
  | sh :: _ => Some sh
  | [] => None
  end.

(** ** Running a group once *)

Section Run.

Context {value : Type}.

(** What a component computes: from the dict of its inputs to the dict of
    its outputs, both keyed by local variable name. *)
Variable compute : System → gmap string value → gmap string value.

(** The values in a group, by group-level name. *)
Definition Env : Type := string → option value.

(** The inputs dict a subsystem receives. *)
Definition gather (g : Group) (s : Subsystem) (env : Env) : gmap string value :=
  list_to_map
    (omap (λ v, x ← input_source g s v ≫= env ; Some (v, x))
          (wired_inputs g s)).

(** The local output a group-level name stands for: every output of [s] is
    known under its path, a promoted one also under its own name. *)
Definition local_output (s : Subsystem) (k : string) : option string :=
  match local_name s k with
  | Some o => Some o
  | None => if bool_decide (k ∈ promotes_outputs s) then Some k else None
  end.

(** Running one subsystem: it reads its inputs dict and writes its outputs
    over the names that stand for them; every other name keeps its value. *)
Definition run_subsystem (g : Group) (env : Env) (s : Subsystem) : Env :=
  let outputs := compute (sub_system s) (gather g s env) in
  λ k, match local_output s k with
       | Some o => outputs !! o
       | None => env k
       end.

(** Subsystems run once each, in the order they were added. *)
Definition run_group (g : Group) (env : Env) : Env :=
  foldl (run_subsystem g) env (subsystems g).

(** The inputs dict each subsystem received during a run. *)
Fixpoint run_trace (g : Group) (ss : list Subsystem) (env : Env)
    : list (string * gmap string value) :=
  match ss with
  | [] => []
  | s :: ss' => (sub_name s, gather g s env)
                  :: run_trace g ss' (run_subsystem g env s)
  end.

Definition inputs_seen (g : Group) (env : Env) (name : string)
    : option (gmap string value) :=
  snd <$> find (λ p, bool_decide (p.1 = name))
               (run_trace g (subsystems g) env).

End Run.

(** * The engine behind the components

    [chem_eq.ChemEq], [PropsRHS], [PropsCalcs] and the species data live in
    modules this file only imports.  What the specification says about them
    (its sections 3, 4, 6 and 7) is modelled here: the table lookup, the
    bounded Newton loop and the order of the stages are written out; the
    numerical kernels are the fields of [Kernels]. *)
Module Core.

(** Modelled from the spec: one temperature segment of a species entry of
    the species table (species_data is missing): [T_min], [T_max] and the
    coefficient sets for Cp/R, H/RT and S/R. *)
Record Segment : Type := {
  T_min : Q;
  T_max : Q;
  cp_coeffs : list Q;
  h_coeffs : list Q;
  s_coeffs : list Q
}.

(** Modelled from the spec: a species record of the missing species table:
    molecular weight, element stoichiometry and temperature segments. *)
Record Species : Type := {
  molecular_weight : Q;
  element_stoichiometry : list Z;
  temperature_range_segments : list Segment
}.

(** Modelled from the spec: the missing species table, a mapping from
    species identifier to species record. *)
Abbreviation SpeciesThermoTable := (gmap string Species).

(** Modelled from the spec: a segment of the missing table covers the
    queried temperature when [T_min <= T <= T_max]. *)
Definition covers (T : Q) (seg : Segment) : bool :=
  Qle_bool (T_min seg) T && Qle_bool T (T_max seg).

(** Modelled from the spec: the missing table lookup; it fails with
    [OutOfRangeError] when no segment of the species covers [T]. *)
Definition segment_at (T : Q) (id : string) (sp : Species) : result Segment :=
  match find (covers T) (temperature_range_segments sp) with
  | Some seg => Ok seg
  | None => Err (OutOfRangeError id)
  end.

(** Modelled from the spec: the missing lookup, for every species of a
    list of table entries. *)
Fixpoint segments_at (T : Q) (entries : list (string * Species))
    : result (list (string * Species * Segment)) :=
  match entries with
  | [] => Ok []
  | (id, sp) :: rest =>
      seg ← segment_at T id sp ;
      segs ← segments_at T rest ;
      mret ((id, sp, seg) :: segs)
  end.

(** Modelled from the spec: the missing lookup over the whole table: the
    thermo data of every species at [T]. *)
Definition lookup_table (table : SpeciesThermoTable) (T : Q)
    : result (list (string * Species * Segment)) :=
  segments_at T (map_to_list table).

(** Modelled from the spec: the sensitivity system of the missing
    [PropsRHS]: one matrix and two right-hand sides. *)
Record Sensitivity : Type := {
  sens_A : list (list Q);
  sens_rhs_T : list Q;
  sens_rhs_P : list Q
}.

(** Modelled from the spec: the properties of the missing [PropsCalcs]. *)
Record Props : Type := {
  prop_h : Q; prop_S : Q; prop_gamma : Q; prop_Cp : Q; prop_Cv : Q;
  prop_rho : Q; prop_R : Q
}.

(** Modelled from the spec: the property set the core returns. *)
Record Outputs : Type := {
  out_n : list Q;
  out_n_moles : Q;
  out_props : Props
}.

(** Modelled from the spec: the numerical kernels of the missing modules
    (chem_eq, props_rhs, props_calcs and the dense linear solve), by the
    contracts of section 4: a Newton iterate with its initial estimate,
    step and convergence criterion, the sensitivity builder
    [build(n, n_moles, T, table)], the linear solve, which has no result
    for a singular matrix, and the property formulas, which have no result
    on a non-finite value. *)
Record Kernels : Type := {
  State : Type;
  initial_estimate :
    list Q → Q → Q → list (string * Species * Segment) → State;
  newton_step :
    list Q → Q → Q → list (string * Species * Segment) → State → State;
  converged : list Q → State → State → bool;
  composition : State → list Q * Q;
  build : list Q → Q → Q → list (string * Species * Segment) → Sensitivity;
  linsolve : list (list Q) → list Q → option (list Q);
  properties :
    list Q → Q → Q → Q → list Q → list Q →
    list (string * Species * Segment) → option Props
}.

(** Modelled from the spec: how a missing kernel that has no result is
    reported: as the typed failure of its stage. *)
Definition or_fail {A} (e : PyError) (o : option A) : result A :=
  match o with Some a => Ok a | None => Err e end.

Section Engine.

Variable K : Kernels.
Variable max_iter : nat.

(** Modelled from the spec: the Newton loop of the missing equilibrium
    solver: each iteration updates the estimate and tests convergence;
    exhausting the iteration budget is a [ConvergenceError]. *)
Fixpoint newton (b0 : list Q) (T P : Q)
    (th : list (string * Species * Segment))
    (budget : nat) (s : State K) : result (State K) :=
  match budget with
  | O => Err ConvergenceError
  | S budget' =>
      let s' := newton_step K b0 T P th s in
      if converged K b0 s s' then Ok s'
      else newton b0 T P th budget' s'
  end.

(** Modelled from the spec: the composition check of the missing
    solver: [b0] is invalid when it has a negative entry or sums to
    zero. *)
Definition valid_composition (b0 : list Q) : bool :=
  forallb (Qle_bool 0) b0 && negb (Qeq_bool (foldr Qplus 0%Q b0) 0).

(** Modelled from the spec: the missing equilibrium solver from a cold
    start: table lookup at [T], composition check, Newton iteration from
    the initial estimate. *)
Definition equilibrium (b0 : list Q) (T P : Q) (table : SpeciesThermoTable)
    : result (State K) :=
  th ← lookup_table table T ;
  if valid_composition b0
  then newton b0 T P th max_iter (initial_estimate K b0 T P th)
  else Err InvalidCompositionError.

(** Modelled from the spec: [solve(b0, T, P, table) -> (n, n_moles)] of
    the missing equilibrium solver. *)
Definition solve (b0 : list Q) (T P : Q) (table : SpeciesThermoTable)
    : result (list Q * Q) :=
  s ← equilibrium b0 T P table ;
  mret (composition K s).

(** Modelled from the spec: the missing stages after the solve, in the
    order of the data flow: sensitivity builder, the two linear solves
    against the one matrix, property calculator. *)
Definition evaluate (b0 : list Q) (T P : Q) (table : SpeciesThermoTable)
    : result Outputs :=
  nn ← solve b0 T P table ;
  th ← lookup_table table T ;
  let sens := build K nn.1 nn.2 T th in
  x_T ← or_fail SingularMatrixError
          (linsolve K (sens_A sens) (sens_rhs_T sens)) ;
  x_P ← or_fail SingularMatrixError
          (linsolve K (sens_A sens) (sens_rhs_P sens)) ;
  pr ← or_fail PropertyComputationError
          (properties K nn.1 nn.2 T P x_T x_P th) ;
  mret {| out_n := nn.1; out_n_moles := nn.2; out_props := pr |}.

(** Modelled from the spec: the estimate of the missing solver after [k]
    Newton steps from [s]. *)
Fixpoint iterate (b0 : list Q) (T P : Q)
    (th : list (string * Species * Segment)) (k : nat) (s : State K)
    : State K :=
  match k with
  | O => s
  | S k' => iterate b0 T P th k' (newton_step K b0 T P th s)
  end.

End Engine.

End Core.

(** * The model as a whole: ownership of names, free inputs, nesting *)

(** The position of the subsystem a path ["sub.var"] belongs to. *)
Definition owner_index (g : Group) (path : string) : option nat :=
  fst <$> list_find (λ s, is_Some (local_name s path)) (subsystems g).

(** A group-level name is owned when some subsystem writes it in a run:
    it is the path of one of its variables or one of its promoted outputs. *)
Definition owned (g : Group) (k : string) : bool :=
  existsb
    (λ s, bool_decide (is_Some (local_name s k))
          || bool_decide (k ∈ promotes_outputs s))
    (subsystems g).

(** The promoted inputs no earlier subsystem produces, subsystem by
    subsystem; [produced] holds the outputs promoted so far. *)
Fixpoint free_inputs_from (produced : list string) (ss : list Subsystem)
    : list string :=
  match ss with
  | [] => []
  | s :: ss' =>
      filter (λ v, v ∉ produced) (promotes_inputs s)
        ++ free_inputs_from (promotes_outputs s ++ produced) ss'
  end.

(** The inputs of a group that have to come from outside it. *)
Definition free_inputs (g : Group) : list string :=
  remove_dups (free_inputs_from [] (subsystems g)).

Section Nested.

Context {value : Type}.

(** What the components that are not groups compute. *)
Variable compute : System → gmap string value → gmap string value.

(** A [Properties] group seen from the group that contains it: the inputs
    dict holds its promoted inputs, the group runs once, and the outputs
    dict holds its promoted outputs. *)
Definition run_Properties (thermo : ThermoData) (inputs : gmap string value)
    : gmap string value :=
  let g := Properties_group thermo in
  let env := run_group compute g (λ k, inputs !! k) in
  list_to_map (omap (λ k, x ← env k ; Some (k, x)) (promoted_outputs g)).

End Nested.

Section Model.

Context {value : Type}.

(** What the components with explicit outputs compute from their inputs. *)
Variable compute : System → gmap string value → gmap string value.

(** What the equilibrium component leaves in its outputs.  It solves for
    them, so the result may depend on the outputs it holds when the run
    reaches it as well as on its inputs. *)
Variable solve :
  System → gmap string value → (string → option value) → gmap string value.

(** The outputs a subsystem holds, by local name: a promoted output is
    read under its promoted name, any other under its path. *)
Definition held_outputs (s : Subsystem) (env : Env) : string → option value :=
  λ o, env (if bool_decide (o ∈ promotes_outputs s) then o
            else sub_name s ++ "." ++ o).

(** The outputs dict of a subsystem of [Thermo] at its turn in a run: the
    equilibrium component solves, the [Properties] group runs its own
    subsystems, every other system is an explicit component. *)
Definition stage_outputs (g : Group) (env : Env) (s : Subsystem)
    : gmap string value :=
  match sub_system s with
  | ChemEq _ _ => solve (sub_system s) (gather g s env) (held_outputs s env)
  | Properties thermo => run_Properties compute thermo (gather g s env)
  | sys => compute sys (gather g s env)
  end.

Definition run_stage (g : Group) (env : Env) (s : Subsystem) : Env :=
  let outputs := stage_outputs g env s in
  λ k, match local_output s k with
       | Some o => outputs !! o
       | None => env k
       end.

(** The inputs dict each subsystem of the model received, in run order. *)
Fixpoint stage_trace (g : Group) (ss : list Subsystem) (env : Env)
    : list (string * gmap string value) :=
  match ss with
  | [] => []
  | s :: ss' => (sub_name s, gather g s env)
                  :: stage_trace g ss' (run_stage g env s)
  end.

Definition stage_inputs (g : Group) (env : Env) (name : string)
    : option (gmap string value) :=
  snd <$> find (λ p, bool_decide (p.1 = name))
               (stage_trace g (subsystems g) env).

End Model.

(** * Concrete inputs

    The script at the end of [new_thermo.py] builds the model for the
    CO/CO2/O2 mixture.  Its inputs, and small stand-ins for what the script
    imports, are the inputs at which the theorems below are instantiated. *)

(** The thermo_dict of the script at the end of [new_thermo.py], and the
    same with another method. *)
Definition main_thermo_dict (method : string) : gmap string pyval :=
  <["method" := PStr method]>
  (<["elements" := PDict (<["CO" := 1]> (<["CO2" := 1]> (<["O2" := 1]> ∅)))]>
  (<["thermo_data" := PModule "species_data.co2_co_o2"]> ∅)).

(** The options of [Thermo(mode='total_TP', thermo_dict={...})] in the
    script, for a given method. *)
Definition main_options (method : string) : ThermoOptions :=
  set_thermo_dict (main_thermo_dict method) Thermo_initialize.

(** A stand-in for the species data constructor: CO, CO2 and O2 are made of
    two elements. *)
Definition co2_co_o2_Thermo (thermo_data elements : pyval) : ThermoData :=
  {| thermo_data := thermo_data; init_reacts := elements; num_element := 2 |}.

(** The values at the level of the [Properties] group before a run: the
    state of the script's scenario at [T = 4000], with a given [b0]. *)
Definition scenario_env (b0 : list Q) : @Env (list Q) := λ k,
  if bool_decide (k = "T") then Some [4000%Q]
  else if bool_decide (k = "P") then Some [(1034210 # 1000000)%Q]
  else if bool_decide (k = "n") then
    Some [(2041851 # 100000000)%Q; (230358 # 100000000)%Q; (1020928 # 100000000)%Q]
  else if bool_decide (k = "n_moles") then Some [(3293137 # 100000000)%Q]
  else if bool_decide (k = "b0") then Some b0
  else None.

Definition b0_main : list Q := [(2272211 # 100000000)%Q; (4544422 # 100000000)%Q].

(** A component behaviour in which the sensitivity builder puts the [b0] it
    receives into [rhs_P]; the other components produce nothing. *)
Definition b0_as_rhs_P (s : System) (inputs : gmap string (list Q))
    : gmap string (list Q) :=
  match s with
  | PropsRHS _ =>
      match inputs !! "b0" with
      | Some b => {[ "rhs_P" := b ]}
      | None => ∅
      end
  | _ => ∅
  end.

(** The species data object of the script's model, as the stand-in
    constructor builds it, and the model itself. *)
Definition main_cea_data : ThermoData :=
  co2_co_o2_Thermo (PModule "species_data.co2_co_o2")
    (PDict (<["CO" := 1]> (<["CO2" := 1]> (<["O2" := 1]> ∅)))).

Definition main_group : Group :=
  {| subsystems :=
       [ {| sub_name := "thermo_TP"; sub_system := ChemEq main_cea_data "T";
            promotes_inputs := ["b0"; "T"; "P"];
            promotes_outputs := ["n"; "n_moles"] |};
         {| sub_name := "props"; sub_system := Properties main_cea_data;
            promotes_inputs := ["T"; "P"; "n"; "n_moles"; "b0"];
            promotes_outputs := ["gamma"; "Cp"; "Cv"; "rho"; "R"; "S"; "h"] |};
         {| sub_name := "flow"; sub_system := EngUnitProps main_cea_data "flow";
            promotes_inputs :=
              ["T"; "P"; "h"; "S"; "gamma"; "Cp"; "Cv"; "rho"; "n";
               "n_moles"; "R"; "b0"];
            promotes_outputs := ["flow:*"] |} ];
     connections := [];
     input_defaults := [("P", 1, "bar"); ("T", 273, "degK")] |}.

(** The scenario before a first run: no [n] is held yet. *)
Definition cold_env : @Env (list Q) := λ k,
  if bool_decide (k = "n") then None else scenario_env b0_main k.

(** The scenario with a stale property and a stale intermediate value. *)
Definition stale_env : @Env (list Q) := λ k,
  if bool_decide (k = "gamma") then Some [2%Q]
  else if bool_decide (k = "props.TP2ls.rhs_P") then Some [9%Q]
  else scenario_env b0_main k.

(** An equilibrium component that keeps the [n] it holds and takes [b0]
    when it holds none; its [n_moles] is its input [T]. *)
Definition keeps_held_n (s : System) (inputs : gmap string (list Q))
    (held : string → option (list Q)) : gmap string (list Q) :=
  match held "n", inputs !! "b0", inputs !! "T" with
  | Some n, _, Some t => <["n" := n]> {[ "n_moles" := t ]}
  | None, Some b, Some t => <["n" := b]> {[ "n_moles" := t ]}
  | _, _, _ => ∅
  end.

(** A species table for CO, CO2 and O2 with two temperature segments each,
    from 200 to 1000 and from 1000 to 6000. *)
Definition two_segments : list Core.Segment :=
  [ {| Core.T_min := 200; Core.T_max := 1000; Core.cp_coeffs := [];
       Core.h_coeffs := []; Core.s_coeffs := [] |};
    {| Core.T_min := 1000; Core.T_max := 6000; Core.cp_coeffs := [];
       Core.h_coeffs := []; Core.s_coeffs := [] |} ].

Definition co2_co_o2_table : gmap string Core.Species :=
  <["CO" := {| Core.molecular_weight := 28; Core.element_stoichiometry := [1; 1];
               Core.temperature_range_segments := two_segments |}]>
  (<["CO2" := {| Core.molecular_weight := 44; Core.element_stoichiometry := [1; 2];
                 Core.temperature_range_segments := two_segments |}]>
  (<["O2" := {| Core.molecular_weight := 32; Core.element_stoichiometry := [0; 2];
                Core.temperature_range_segments := two_segments |}]> ∅)).

(** Kernels on a one-number state: the estimate starts at 1 and is halved
    by every step; it has converged when a step changes it by at most 1/8,
    which happens at the third step. *)
Definition halving_kernels : Core.Kernels :=
  {| Core.State := Q;
     Core.initial_estimate := λ _ _ _ _, 1%Q;
     Core.newton_step := λ _ _ _ _ s, (s / 2)%Q;
     Core.converged := λ _ s s', Qle_bool (Qabs (s - s')) (1 # 8);
     Core.composition := λ s, ([s], s);
     Core.build := λ n n_moles _ _,
       {| Core.sens_A := [[1%Q]]; Core.sens_rhs_T := n;
          Core.sens_rhs_P := [n_moles] |};
     Core.linsolve := λ _ b, Some b;
     Core.properties := λ _ n_moles T P _ _ _,
       Some {| Core.prop_h := T; Core.prop_S := 1; Core.prop_gamma := 1;
               Core.prop_Cp := 1; Core.prop_Cv := 1; Core.prop_rho := P;
               Core.prop_R := n_moles |} |}.

(** * Properties of the model [new_thermo.py] builds *)

(** ** [Thermo.setup], branch by branch *)

Section ThermoFacts.

Variable mk : pyval → pyval → ThermoData.

Lemma Thermo_setup_branch options d method locals g0 :
  opt_thermo_dict options = Some d →
  d !! "method" = Some method →
  method_branch mk method d = Ok locals →
  Thermo_setup mk options g0 =
    match base_thermo locals, in_vars locals, out_vars locals, cea_data locals with
    | None, _, _, _ => Err (UnboundLocalError "base_thermo")
    | Some _, None, _, _ => Err (UnboundLocalError "in_vars")
    | Some _, Some _, None, _ => Err (UnboundLocalError "out_vars")
    | Some _, Some _, Some _, None => Err (UnboundLocalError "cea_data")
    | Some b, Some i, Some o, Some c =>
        Ok ((), {| subsystems := subsystems g0 ++
          [ {| sub_name := "thermo_TP"; sub_system := b;
               promotes_inputs := i; promotes_outputs := o |};
            {| sub_name := "props"; sub_system := Properties c;
               promotes_inputs := ["T"; "P"; "n"; "n_moles"; "b0"];
               promotes_outputs := ["gamma"; "Cp"; "Cv"; "rho"; "R"; "S"; "h"] |};
            {| sub_name := "flow";
               sub_system := EngUnitProps c (opt_fl_name options);
               promotes_inputs :=
                 ["T"; "P"; "h"; "S"; "gamma"; "Cp"; "Cv"; "rho"; "n";
                  "n_moles"; "R"; "b0"];
               promotes_outputs := [opt_fl_name options ++ ":*"] |} ];
          connections := connections g0;
          input_defaults :=
            input_defaults g0 ++ [("P", 1, "bar"); ("T", 273, "degK")] |})
    end.
Proof.
  intros Hd Hm Hb.
  unfold Thermo_setup, mbind, setup_bind, lift, get_thermo_dict, getitem.
  rewrite Hd, Hm, Hb.
  destruct locals as [[c|] [b|] [i|] [o|]]; cbn; try reflexivity.
  unfold set_input_defaults; cbn. rewrite <- !app_assoc. reflexivity.
Qed.

Lemma Thermo_setup_branch_err options d method e g0 :
  opt_thermo_dict options = Some d →
  d !! "method" = Some method →
  method_branch mk method d = Err e →
  Thermo_setup mk options g0 = Err e.
Proof.
  intros Hd Hm Hb.
  unfold Thermo_setup, mbind, setup_bind, lift, get_thermo_dict, getitem.
  rewrite Hd, Hm, Hb. reflexivity.
Qed.

Lemma method_branch_CEA d td el :
  d !! "thermo_data" = Some td →
  d !! "elements" = Some el →
  method_branch mk (PStr "CEA") d =
    Ok {| cea_data := Some (mk td el);
          base_thermo := Some (ChemEq (mk td el) "T");
          in_vars := Some ["b0"; "T"; "P"];
          out_vars := Some ["n"; "n_moles"] |}.
Proof.
  intros Htd Hel. unfold method_branch, getitem. cbn.
  rewrite Htd. cbn. rewrite Hel. reflexivity.
Qed.

Lemma method_branch_other method d :
  eq_str method "CEA" = false →
  method_branch mk method d = Ok no_locals.
Proof.
  intros H. unfold method_branch. rewrite H.
  destruct (eq_str method "Ideal"), (eq_str method "Tabular"); reflexivity.
Qed.

Lemma eq_str_true v s : eq_str v s = true ↔ v = PStr s.
Proof.
  destruct v; cbn; try (split; [discriminate | congruence]).
  rewrite bool_decide_eq_true. split; congruence.
Qed.

Lemma Thermo_setup_CEA options d td el g0 :
  opt_thermo_dict options = Some d →
  d !! "method" = Some (PStr "CEA") →
  d !! "thermo_data" = Some td →
  d !! "elements" = Some el →
  Thermo_setup mk options g0 =
    Ok ((), {| subsystems := subsystems g0 ++
      [ {| sub_name := "thermo_TP"; sub_system := ChemEq (mk td el) "T";
           promotes_inputs := ["b0"; "T"; "P"];
           promotes_outputs := ["n"; "n_moles"] |};
        {| sub_name := "props"; sub_system := Properties (mk td el);
           promotes_inputs := ["T"; "P"; "n"; "n_moles"; "b0"];
           promotes_outputs := ["gamma"; "Cp"; "Cv"; "rho"; "R"; "S"; "h"] |};
        {| sub_name := "flow";
           sub_system := EngUnitProps (mk td el) (opt_fl_name options);
           promotes_inputs :=
             ["T"; "P"; "h"; "S"; "gamma"; "Cp"; "Cv"; "rho"; "n"; "n_moles";
              "R"; "b0"];
           promotes_outputs := [opt_fl_name options ++ ":*"] |} ];
      connections := connections g0;
      input_defaults := input_defaults g0 ++ [("P", 1, "bar"); ("T", 273, "degK")] |}).
Proof.
  intros Hd Hm Htd Hel.
  rewrite (Thermo_setup_branch _ _ _ _ g0 Hd Hm (method_branch_CEA _ _ _ Htd Hel)).
  reflexivity.
Qed.

(** [Thermo.setup] makes no connection of its own: at its level, values
    travel by promoted names only. *)
Lemma Thermo_setup_connects_nothing options g0 g :
  Thermo_setup mk options g0 = Ok ((), g) → connections g = connections g0.
Proof.
  destruct (opt_thermo_dict options) as [d|] eqn:Hd.
  - destruct (d !! "method") as [method|] eqn:Hm.
    + destruct (method_branch mk method d) as [locals|e] eqn:Hb.
      * rewrite (Thermo_setup_branch _ _ _ _ g0 Hd Hm Hb).
        destruct locals as [[c|] [b|] [i|] [o|]]; cbn; try discriminate.
        by intros [= <-].
      * by rewrite (Thermo_setup_branch_err _ _ _ _ g0 Hd Hm Hb).
    + unfold Thermo_setup, mbind, setup_bind, lift, get_thermo_dict, getitem.
      by rewrite Hd, Hm.
  - unfold Thermo_setup, mbind, setup_bind, lift, get_thermo_dict.
    by rewrite Hd.
Qed.

End ThermoFacts.

(** The model the script builds: three subsystems, no connection at the
    level of [Thermo], and the two input defaults. *)
Example main_model :
  built (Thermo_setup co2_co_o2_Thermo (main_options "CEA")) =
  let cea_data :=
    co2_co_o2_Thermo (PModule "species_data.co2_co_o2")
      (PDict (<["CO" := 1]> (<["CO2" := 1]> (<["O2" := 1]> ∅)))) in
  Ok {| subsystems :=
          [ {| sub_name := "thermo_TP"; sub_system := ChemEq cea_data "T";
               promotes_inputs := ["b0"; "T"; "P"];
               promotes_outputs := ["n"; "n_moles"] |};
            {| sub_name := "props"; sub_system := Properties cea_data;
               promotes_inputs := ["T"; "P"; "n"; "n_moles"; "b0"];
               promotes_outputs := ["gamma"; "Cp"; "Cv"; "rho"; "R"; "S"; "h"] |};
            {| sub_name := "flow"; sub_system := EngUnitProps cea_data "flow";
               promotes_inputs :=
                 ["T"; "P"; "h"; "S"; "gamma"; "Cp"; "Cv"; "rho"; "n";
                  "n_moles"; "R"; "b0"];
               promotes_outputs := ["flow:*"] |} ];
        connections := [];
        input_defaults := [("P", 1, "bar"); ("T", 273, "degK")] |}.
Proof. vm_compute. reflexivity. Qed.

Example main_mode_is_default :
  set_mode "total_TP" (main_options "CEA") = Ok (main_options "CEA").
Proof. reflexivity. Qed.

Example mode_outside_values_rejected :
  set_mode "total_TS" (main_options "CEA") = Err (OptionValueError "mode" "total_TS").
Proof. reflexivity. Qed.

Example thermo_dict_required :
  built (Thermo_setup co2_co_o2_Thermo Thermo_initialize)
  = Err (OptionNotSet "thermo_dict").
Proof. reflexivity. Qed.

Example Tabular_is_unbound :
  built (Thermo_setup co2_co_o2_Thermo (main_options "Tabular"))
  = Err (UnboundLocalError "base_thermo").
Proof. vm_compute. reflexivity. Qed.

(** The [Properties] group for a mixture of two elements: four subsystems,
    the two linear systems of size 3, six connections. *)
Example Properties_group_two_elements :
  Properties_group (co2_co_o2_Thermo (PInt 0) (PInt 0)) =
  let thermo := co2_co_o2_Thermo (PInt 0) (PInt 0) in
  {| subsystems :=
       [ {| sub_name := "TP2ls"; sub_system := PropsRHS thermo;
            promotes_inputs := ["T"; "n"; "n_moles"; "b0"];
            promotes_outputs := [] |};
         {| sub_name := "ls2t"; sub_system := LinearSystemComp 3;
            promotes_inputs := []; promotes_outputs := [] |};
         {| sub_name := "ls2p"; sub_system := LinearSystemComp 3;
            promotes_inputs := []; promotes_outputs := [] |};
         {| sub_name := "tp2props"; sub_system := PropsCalcs thermo;
            promotes_inputs := ["n"; "n_moles"; "T"; "P"];
            promotes_outputs := ["h"; "S"; "gamma"; "Cp"; "Cv"; "rho"; "R"] |} ];
     connections :=
       [ ("TP2ls.lhs_TP", "ls2t.A"); ("TP2ls.lhs_TP", "ls2p.A");
         ("TP2ls.rhs_T", "ls2t.b"); ("TP2ls.rhs_P", "ls2p.b");
         ("ls2t.x", "tp2props.result_T"); ("ls2p.x", "tp2props.result_P") ];
     input_defaults := [] |}.
Proof. reflexivity. Qed.

Example wired_inputs_of_Properties :
  (λ s, (sub_name s,
         wired_inputs (Properties_group (co2_co_o2_Thermo (PInt 0) (PInt 0))) s))
    <$> subsystems (Properties_group (co2_co_o2_Thermo (PInt 0) (PInt 0)))
  = [ ("TP2ls", ["T"; "n"; "n_moles"; "b0"]);
      ("ls2t", ["A"; "b"]);
      ("ls2p", ["A"; "b"]);
      ("tp2props", ["n"; "n_moles"; "T"; "P"; "result_T"; "result_P"]) ].
Proof. reflexivity. Qed.

(** C10.  With method ['Ideal'] or ['Tabular'] in the thermo_dict, the
    branch assigns none of [base_thermo], [in_vars], [out_vars], [cea_data],
    and [Thermo.setup] fails with the unbound-name error for [base_thermo],
    which is not one of the typed failures of the error taxonomy.  Setup
    succeeds exactly when the method is ['CEA'] (and the dict holds the two
    keys that branch reads). *)
Theorem Thermo_setup_only_CEA :
  ∀ (mk : pyval → pyval → ThermoData) options d method g0,
    opt_thermo_dict options = Some d →
    d !! "method" = Some method →
    (method = PStr "Ideal" ∨ method = PStr "Tabular" →
       method_branch mk method d = Ok no_locals ∧
       Thermo_setup mk options g0 = Err (UnboundLocalError "base_thermo") ∧
       is_taxonomy_error (UnboundLocalError "base_thermo") = false) ∧
    (is_ok (Thermo_setup mk options g0) = true ↔
       method = PStr "CEA" ∧
       is_Some (d !! "thermo_data") ∧ is_Some (d !! "elements")).
Proof.
  intros mk options d method g0 Hd Hm. split.
  - intros Hmeth.
    assert (Hb : method_branch mk method d = Ok no_locals)
      by (destruct Hmeth as [-> | ->]; reflexivity).
    split; [exact Hb|]. split; [|reflexivity].
    rewrite (Thermo_setup_branch mk _ _ _ _ g0 Hd Hm Hb). reflexivity.
  - split.
    + intros Hok.
      destruct (eq_str method "CEA") eqn:Hcea.
      * apply eq_str_true in Hcea. subst method. split; [reflexivity|].
        destruct (d !! "thermo_data") as [td|] eqn:Htd.
        -- destruct (d !! "elements") as [el|] eqn:Hel; [eauto|].
           exfalso.
           assert (Hb : method_branch mk (PStr "CEA") d = Err (KeyError "elements")).
           { unfold method_branch, getitem; cbn. rewrite Htd; cbn. rewrite Hel.
             reflexivity. }
           rewrite (Thermo_setup_branch_err mk _ _ _ _ g0 Hd Hm Hb) in Hok.
           discriminate.
        -- exfalso.
           assert (Hb : method_branch mk (PStr "CEA") d = Err (KeyError "thermo_data")).
           { unfold method_branch, getitem; cbn. rewrite Htd. reflexivity. }
           rewrite (Thermo_setup_branch_err mk _ _ _ _ g0 Hd Hm Hb) in Hok.
           discriminate.
      * exfalso.
        pose proof (method_branch_other mk method d Hcea) as Hb.
        rewrite (Thermo_setup_branch mk _ _ _ _ g0 Hd Hm Hb) in Hok.
        discriminate.
    + intros (-> & [td Htd] & [el Hel]).
      rewrite (Thermo_setup_CEA mk _ _ _ _ g0 Hd Hm Htd Hel). reflexivity.
Qed.

Lemma Thermo_setup_only_CEA_witness :
  Thermo_setup co2_co_o2_Thermo
    (main_options "Ideal") empty_group
  = Err (UnboundLocalError "base_thermo").
Proof.
  refine (proj1 (proj2 (proj1
    (Thermo_setup_only_CEA co2_co_o2_Thermo
       (main_options "Ideal")
       (main_thermo_dict "Ideal") (PStr "Ideal") empty_group _ _) _))).
  - reflexivity.
  - vm_compute. reflexivity.
  - left. reflexivity.
Defined.

(** C9.  Each of the six declared values of the ['mode'] option is
    accepted, and for any two of them, all other options equal,
    [Thermo.setup] gives the same result: the same subsystems, promotions,
    connections and input defaults, or the same failure. *)
Theorem Thermo_setup_mode_irrelevant :
  ∀ (mk : pyval → pyval → ThermoData) options m1 m2 g0,
    m1 ∈ mode_values → m2 ∈ mode_values →
    ∃ o1 o2,
      set_mode m1 options = Ok o1 ∧ set_mode m2 options = Ok o2 ∧
      opt_mode o1 = m1 ∧ opt_mode o2 = m2 ∧
      Thermo_setup mk o1 g0 = Thermo_setup mk o2 g0.
Proof.
  intros mk options m1 m2 g0 H1 H2.
  unfold set_mode.
  rewrite (bool_decide_eq_true_2 _ H1), (bool_decide_eq_true_2 _ H2).
  do 2 eexists. repeat split; reflexivity.
Qed.

Lemma Thermo_setup_mode_irrelevant_witness :
  ∃ o1 o2,
    set_mode "static_MN" (main_options "CEA") = Ok o1 ∧
    set_mode "total_TP" (main_options "CEA") = Ok o2 ∧
    opt_mode o1 = "static_MN" ∧ opt_mode o2 = "total_TP" ∧
    Thermo_setup co2_co_o2_Thermo o1 empty_group
    = Thermo_setup co2_co_o2_Thermo o2 empty_group.
Proof.
  apply (Thermo_setup_mode_irrelevant co2_co_o2_Thermo
           (main_options "CEA")
           "static_MN" "total_TP" empty_group).
  - vm_compute. repeat first [ left | right; left | right ].
  - vm_compute. left.
Defined.

(** ** What the two stages of the core expose *)

Lemma props_outputs_perm (a b c d e f g : string) :
  [a; b; c; d; e; f; g] ≡ₚ [g; f; a; b; c; d; e].
Proof.
  change ([a; b; c; d; e] ++ [f; g] ≡ₚ [g; f] ++ [a; b; c; d; e])%list.
  rewrite (Permutation_app_comm [a; b; c; d; e] [f; g]).
  apply Permutation_app_tail, perm_swap.
Qed.

(** C4.  With method ['CEA'] and mode ['total_TP'], [Thermo.setup] succeeds
    and the two stages of the core expose exactly
    [n, n_moles, h, S, gamma, Cp, Cv, rho, R]: the equilibrium stage
    ['thermo_TP'], which takes [b0], [T], [P] and is built on the species
    data, promotes [n] and [n_moles]; the stage ['props'] promotes the other
    seven, and inside [Properties] these seven are the promoted outputs of
    the property calculator ['tp2props'] and of no other subsystem.  The
    one promotion besides these is the flow-station pattern of the unit
    conversion component. *)
Theorem core_exposes_property_set :
  ∀ (mk : pyval → pyval → ThermoData) options d td el,
    opt_mode options = "total_TP" →
    opt_thermo_dict options = Some d →
    d !! "method" = Some (PStr "CEA") →
    d !! "thermo_data" = Some td →
    d !! "elements" = Some el →
    ∃ g eq_stage prop_stage calc,
      built (Thermo_setup mk options) = Ok g ∧
      find_subsystem g "thermo_TP" = Some eq_stage ∧
      find_subsystem g "props" = Some prop_stage ∧
      find_subsystem (Properties_group (mk td el)) "tp2props" = Some calc ∧
      sub_system eq_stage = ChemEq (mk td el) "T" ∧
      promotes_inputs eq_stage = ["b0"; "T"; "P"] ∧
      promotes_outputs eq_stage = ["n"; "n_moles"] ∧
      sub_system prop_stage = Properties (mk td el) ∧
      sub_system calc = PropsCalcs (mk td el) ∧
      promotes_outputs calc = ["h"; "S"; "gamma"; "Cp"; "Cv"; "rho"; "R"] ∧
      promoted_outputs (Properties_group (mk td el)) = promotes_outputs calc ∧
      promotes_outputs prop_stage ≡ₚ promotes_outputs calc ∧
      (promotes_outputs eq_stage ++ promotes_outputs prop_stage)%list
        ≡ₚ ["n"; "n_moles"; "h"; "S"; "gamma"; "Cp"; "Cv"; "rho"; "R"] ∧
      promoted_outputs g =
        (promotes_outputs eq_stage ++ promotes_outputs prop_stage
           ++ [(opt_fl_name options ++ ":*")%string])%list.
Proof.
  intros mk options d td el _ Hd Hm Htd Hel.
  unfold built.
  rewrite (Thermo_setup_CEA mk _ _ _ _ empty_group Hd Hm Htd Hel).
  do 4 eexists.
  do 4 (split; [reflexivity|]).
  cbn [sub_system promotes_inputs promotes_outputs].
  do 7 (split; [reflexivity|]).
  split; [apply props_outputs_perm|].
  split; [|reflexivity].
  apply (Permutation_app_head [_; _]), props_outputs_perm.
Qed.

Lemma core_exposes_property_set_witness :
  ∃ g eq_stage prop_stage,
    built (Thermo_setup co2_co_o2_Thermo
             (main_options "CEA")) = Ok g ∧
    find_subsystem g "thermo_TP" = Some eq_stage ∧
    find_subsystem g "props" = Some prop_stage ∧
    (promotes_outputs eq_stage ++ promotes_outputs prop_stage)%list
      ≡ₚ ["n"; "n_moles"; "h"; "S"; "gamma"; "Cp"; "Cv"; "rho"; "R"].
Proof.
  destruct (core_exposes_property_set co2_co_o2_Thermo
              (main_options "CEA")
              (main_thermo_dict "CEA")
              (PModule "species_data.co2_co_o2")
              (PDict (<["CO" := 1]> (<["CO2" := 1]> (<["O2" := 1]> ∅)))))
    as (g & eq_stage & prop_stage & calc & Hg & He & Hp & _ & _ & _ & _ & _
        & _ & _ & _ & _ & Hset & _).
  - reflexivity.
  - reflexivity.
  - vm_compute. reflexivity.
  - vm_compute. reflexivity.
  - vm_compute. reflexivity.
  - exists g, eq_stage, prop_stage. repeat split; assumption.
Defined.

(** ** The sensitivity system inside [Properties] *)

(** C3.  The two linear systems are built with size [num_element + 1]; the
    matrix [lhs_TP] the sensitivity builder produces and the matrix input
    [A] of either linear system are square of that size, and the
    right-hand sides [rhs_T], [rhs_P], the inputs [b] they are connected to
    and the solutions [x] have that length. *)
Theorem sensitivity_system_size :
  ∀ thermo : ThermoData,
    let g := Properties_group thermo in
    let ne1 := (num_element thermo + 1)%nat in
    sub_system <$> find_subsystem g "ls2t" = Some (LinearSystemComp ne1) ∧
    sub_system <$> find_subsystem g "ls2p" = Some (LinearSystemComp ne1) ∧
    source_of g "ls2t.A" = Some "TP2ls.lhs_TP" ∧
    source_of g "ls2p.A" = Some "TP2ls.lhs_TP" ∧
    source_of g "ls2t.b" = Some "TP2ls.rhs_T" ∧
    source_of g "ls2p.b" = Some "TP2ls.rhs_P" ∧
    shape_at output_shape g "TP2ls.lhs_TP" = Some [ne1; ne1] ∧
    shape_at input_shape g "ls2t.A" = Some [ne1; ne1] ∧
    shape_at input_shape g "ls2p.A" = Some [ne1; ne1] ∧
    shape_at output_shape g "TP2ls.rhs_T" = Some [ne1] ∧
    shape_at input_shape g "ls2t.b" = Some [ne1] ∧
    shape_at output_shape g "TP2ls.rhs_P" = Some [ne1] ∧
    shape_at input_shape g "ls2p.b" = Some [ne1] ∧
    shape_at output_shape g "ls2t.x" = Some [ne1] ∧
    shape_at output_shape g "ls2p.x" = Some [ne1].
Proof.
  intros thermo g ne1. subst g ne1.
  repeat split; reflexivity.
Qed.

Section RunFacts.

Context {value : Type}.
Variable compute : System → gmap string value → gmap string value.

Lemma list_to_map_omap_lookup (h : string → option value) (l : list string) v :
  (list_to_map (omap (λ v, x ← h v ; Some (v, x)) l) : gmap string value) !! v
  = if bool_decide (v ∈ l) then h v else None.
Proof.
  induction l as [|a l IH]; [reflexivity|].
  cbn [omap list_omap].
  destruct (decide (v = a)) as [->|Hne].
  - rewrite bool_decide_eq_true_2 by left.
    destruct (h a) as [x|] eqn:Ha; cbn.
    + apply lookup_insert_eq.
    + rewrite IH. case_bool_decide; reflexivity.
  - assert (Hiff : bool_decide (v ∈ a :: l) = bool_decide (v ∈ l)).
    { apply bool_decide_ext. rewrite elem_of_cons. tauto. }
    rewrite Hiff.
    destruct (h a) as [x|]; cbn; [rewrite lookup_insert_ne by congruence|];
      exact IH.
Qed.

Lemma gather_lookup g s (env : @Env value) v :
  gather g s env !! v =
    if bool_decide (v ∈ wired_inputs g s) then input_source g s v ≫= env
    else None.
Proof. apply list_to_map_omap_lookup. Qed.

Lemma gather_promoted g s (env : @Env value) v :
  v ∈ promotes_inputs s → gather g s env !! v = env v.
Proof.
  intros Hv. rewrite gather_lookup. unfold wired_inputs, input_source.
  rewrite (bool_decide_eq_true_2 (v ∈ promotes_inputs s)) by exact Hv.
  rewrite bool_decide_eq_true_2; [reflexivity|].
  apply elem_of_app. by left.
Qed.

Lemma gather_ext g s (env1 env2 : @Env value) :
  Forall (λ v, input_source g s v ≫= env1 = input_source g s v ≫= env2)
         (wired_inputs g s) →
  gather g s env1 = gather g s env2.
Proof.
  intros H. unfold gather. f_equal.
  induction H as [|v l Hv _ IH]; [reflexivity|].
  cbn [omap list_omap]. rewrite Hv, IH. reflexivity.
Qed.

End RunFacts.

(** C2.  In a run of the [Properties] group, whatever the components
    compute and whatever the inputs, the matrix input [A] of the
    temperature system ['ls2t'] and of the pressure system ['ls2p'] is one
    and the same value, the [lhs_TP] output of the sensitivity builder;
    their right-hand sides are its [rhs_T] and [rhs_P]; the property
    calculator receives the two solutions as [result_T] and [result_P].
    Each solution is connected to that one input and to nothing else, and
    neither linear system promotes an output. *)
Theorem one_matrix_two_solves :
  ∀ (value : Type) (compute : System → gmap string value → gmap string value)
    (thermo : ThermoData) (env : @Env value),
    let g := Properties_group thermo in
    let solver := LinearSystemComp (num_element thermo + 1) in
    ∃ ins_rhs ins_t ins_p ins_calc,
      inputs_seen compute g env "TP2ls" = Some ins_rhs ∧
      inputs_seen compute g env "ls2t" = Some ins_t ∧
      inputs_seen compute g env "ls2p" = Some ins_p ∧
      inputs_seen compute g env "tp2props" = Some ins_calc ∧
      ins_t !! "A" = compute (PropsRHS thermo) ins_rhs !! "lhs_TP" ∧
      ins_p !! "A" = compute (PropsRHS thermo) ins_rhs !! "lhs_TP" ∧
      ins_t !! "b" = compute (PropsRHS thermo) ins_rhs !! "rhs_T" ∧
      ins_p !! "b" = compute (PropsRHS thermo) ins_rhs !! "rhs_P" ∧
      ins_calc !! "result_T" = compute solver ins_t !! "x" ∧
      ins_calc !! "result_P" = compute solver ins_p !! "x" ∧
      sub_system <$> find_subsystem g "ls2t" = Some solver ∧
      sub_system <$> find_subsystem g "ls2p" = Some solver ∧
      sub_system <$> find_subsystem g "tp2props" = Some (PropsCalcs thermo) ∧
      consumers g "TP2ls.lhs_TP" = ["ls2t.A"; "ls2p.A"] ∧
      consumers g "TP2ls.rhs_T" = ["ls2t.b"] ∧
      consumers g "TP2ls.rhs_P" = ["ls2p.b"] ∧
      consumers g "ls2t.x" = ["tp2props.result_T"] ∧
      consumers g "ls2p.x" = ["tp2props.result_P"] ∧
      promotes_outputs <$> find_subsystem g "ls2t" = Some [] ∧
      promotes_outputs <$> find_subsystem g "ls2p" = Some [].
Proof.
  intros value compute thermo env g solver.
  do 4 eexists.
  do 4 (split; [reflexivity|]).
  cbn [snd]. rewrite !gather_lookup.
  repeat split; reflexivity.
Qed.

(** ** What reaches the sensitivity builder *)



(** * Properties of the engine, as the specification describes it *)

Section CoreFacts.

Import Core.

Variable K : Kernels.

Lemma segment_at_Ok T id sp seg :
  segment_at T id sp = Ok seg →
  seg ∈ temperature_range_segments sp ∧ covers T seg = true.
Proof.
  unfold segment_at.
  destruct (find (covers T) (temperature_range_segments sp)) as [s|] eqn:Hf;
    [|discriminate].
  intros [= <-]. apply find_some in Hf as [Hin Hc].
  split; [by apply list_elem_of_In | exact Hc].
Qed.

Lemma segment_at_Err T id sp e :
  segment_at T id sp = Err e →
  e = OutOfRangeError id ∧
  Forall (λ seg, covers T seg = false) (temperature_range_segments sp).
Proof.
  unfold segment_at.
  destruct (find (covers T) (temperature_range_segments sp)) as [s|] eqn:Hf;
    [discriminate|].
  intros [= <-]. split; [reflexivity|].
  apply Forall_forall. intros seg Hin.
  apply (find_none _ _ Hf). by apply list_elem_of_In.
Qed.

Lemma segment_at_uncovered T id sp :
  Forall (λ seg, covers T seg = false) (temperature_range_segments sp) →
  segment_at T id sp = Err (OutOfRangeError id).
Proof.
  intros Hall. unfold segment_at.
  destruct (find (covers T) (temperature_range_segments sp)) as [s|] eqn:Hf;
    [|reflexivity].
  apply find_some in Hf as [Hin Hc].
  rewrite Forall_forall in Hall.
  rewrite (Hall s) in Hc by (by apply list_elem_of_In). discriminate.
Qed.

(** A failed lookup names a species of the table that no segment covers. *)
Lemma segments_at_Err T entries e :
  segments_at T entries = Err e →
  ∃ id sp, (id, sp) ∈ entries ∧ e = OutOfRangeError id ∧
    Forall (λ seg, covers T seg = false) (temperature_range_segments sp).
Proof.
  induction entries as [|[id sp] rest IH]; [discriminate|].
  cbn [segments_at]. unfold mbind, result_bind.
  destruct (segment_at T id sp) as [seg|e'] eqn:Hs.
  - destruct (segments_at T rest) as [segs|e''] eqn:Hr; [discriminate|].
    intros [= <-]. destruct (IH eq_refl) as (id' & sp' & Hin & He & Hall).
    exists id', sp'. split; [by right | by split].
  - intros [= <-]. apply segment_at_Err in Hs as [-> Hall].
    exists id, sp. split; [by left | by split].
Qed.

(** An uncovered species makes the lookup fail. *)
Lemma segments_at_uncovered T entries id sp :
  (id, sp) ∈ entries →
  Forall (λ seg, covers T seg = false) (temperature_range_segments sp) →
  ∃ e, segments_at T entries = Err e.
Proof.
  intros Hin Hall.
  induction entries as [|[id' sp'] rest IH]; [by apply elem_of_nil in Hin|].
  cbn [segments_at]. unfold mbind, result_bind.
  destruct (segment_at T id' sp') as [seg|e'] eqn:Hs; [|eauto].
  apply elem_of_cons in Hin as [[= <- <-]|Hin].
  - rewrite (segment_at_uncovered _ _ _ Hall) in Hs. discriminate.
  - destruct (IH Hin) as [e ->]. eauto.
Qed.

Lemma lookup_table_Err table T e :
  lookup_table table T = Err e →
  ∃ id sp, table !! id = Some sp ∧ e = OutOfRangeError id ∧
    Forall (λ seg, covers T seg = false) (temperature_range_segments sp).
Proof.
  intros H. apply segments_at_Err in H as (id & sp & Hin & He & Hall).
  exists id, sp. split; [by apply elem_of_map_to_list | by split].
Qed.

Lemma lookup_table_uncovered table T id sp :
  table !! id = Some sp →
  Forall (λ seg, covers T seg = false) (temperature_range_segments sp) →
  ∃ e, lookup_table table T = Err e.
Proof.
  intros Hin Hall. apply (segments_at_uncovered T _ id sp); [|exact Hall].
  by apply elem_of_map_to_list.
Qed.

(** The Newton loop fails in one way only. *)
Lemma newton_Err max_iter b0 T P th s e :
  newton K b0 T P th max_iter s = Err e → e = ConvergenceError.
Proof.
  revert s. induction max_iter as [|k IH]; intros s; cbn.
  - congruence.
  - destruct (converged K b0 s (newton_step K b0 T P th s)); [discriminate|].
    apply IH.
Qed.

Lemma newton_exhausted max_iter b0 T P th s :
  (∀ k, (k < max_iter)%nat →
     converged K b0 (iterate K b0 T P th k s)
                    (iterate K b0 T P th (S k) s) = false) →
  newton K b0 T P th max_iter s = Err ConvergenceError.
Proof.
  revert s. induction max_iter as [|m IH]; intros s Hno; cbn; [reflexivity|].
  assert (H0 : (0 < S m)%nat) by lia.
  apply Hno in H0. cbn in H0. rewrite H0.
  apply IH. intros k Hk. apply (Hno (S k)). lia.
Qed.

Lemma newton_Ok max_iter b0 T P th s s' :
  newton K b0 T P th max_iter s = Ok s' →
  ∃ k, (k < max_iter)%nat ∧
    converged K b0 (iterate K b0 T P th k s)
                   (iterate K b0 T P th (S k) s) = true ∧
    s' = iterate K b0 T P th (S k) s.
Proof.
  revert s. induction max_iter as [|m IH]; intros s; cbn; [discriminate|].
  destruct (converged K b0 s (newton_step K b0 T P th s)) eqn:Hc.
  - intros [= <-]. exists 0%nat. split; [lia|]. by split.
  - intros H. destruct (IH _ H) as (k & Hk & Hck & ->).
    exists (S k). split; [lia|]. by split.
Qed.

Variable max_iter : nat.

(** The solver fails as the lookup does when the lookup fails. *)
Lemma equilibrium_lookup_Err b0 T P table e :
  lookup_table table T = Err e → equilibrium K max_iter b0 T P table = Err e.
Proof. intros H. unfold equilibrium, mbind, result_bind. by rewrite H. Qed.

Lemma equilibrium_after_lookup b0 T P table th :
  lookup_table table T = Ok th →
  equilibrium K max_iter b0 T P table =
    if valid_composition b0
    then newton K b0 T P th max_iter (initial_estimate K b0 T P th)
    else Err InvalidCompositionError.
Proof. intros H. unfold equilibrium, mbind, result_bind. by rewrite H. Qed.

Lemma evaluate_solve_Err b0 T P table e :
  solve K max_iter b0 T P table = Err e →
  evaluate K max_iter b0 T P table = Err e.
Proof. intros H. unfold evaluate, mbind, result_bind. by rewrite H. Qed.

Lemma solve_equilibrium_Err b0 T P table e :
  equilibrium K max_iter b0 T P table = Err e →
  solve K max_iter b0 T P table = Err e.
Proof. intros H. unfold solve, mbind, result_bind. by rewrite H. Qed.

(** With every species covered, no stage reports a temperature out of range. *)
Lemma evaluate_covered_Err b0 T P table th e :
  lookup_table table T = Ok th →
  evaluate K max_iter b0 T P table = Err e →
  e = InvalidCompositionError ∨ e = ConvergenceError ∨
  e = SingularMatrixError ∨ e = PropertyComputationError.
Proof.
  intros Hth. unfold evaluate, solve, mbind, result_bind.
  rewrite (equilibrium_after_lookup _ _ _ _ _ Hth), Hth.
  destruct (valid_composition b0); [|intros [= <-]; tauto].
  destruct (newton _ _ _ _ _ _ _) as [s|e'] eqn:Hn.
  - cbn.
    destruct (linsolve K _ _) as [xT|]; cbn; [|intros [= <-]; tauto].
    destruct (linsolve K _ _) as [xP|]; cbn; [|intros [= <-]; tauto].
    destruct (properties K _ _ _ _ _ _ _) as [pr|]; cbn; [discriminate|].
    intros [= <-]; tauto.
  - apply newton_Err in Hn as ->. intros [= <-]; tauto.
Qed.

End CoreFacts.

(** The halving kernels converge at the third step and not before. *)
Example solve_three_steps :
  Core.solve halving_kernels 3 b0_main 4000 1 co2_co_o2_table
  = Ok ([(1 # 8)%Q], (1 # 8)%Q).
Proof. vm_compute. reflexivity. Qed.

Example solve_two_steps :
  Core.solve halving_kernels 2 b0_main 4000 1 co2_co_o2_table
  = Err ConvergenceError.
Proof. vm_compute. reflexivity. Qed.

Example solve_negative_composition :
  Core.solve halving_kernels 3 [(-1)%Q; 2%Q] 4000 1 co2_co_o2_table
  = Err InvalidCompositionError.
Proof. vm_compute. reflexivity. Qed.

Example evaluate_at_4000 :
  is_ok (Core.evaluate halving_kernels 3 b0_main 4000 1 co2_co_o2_table) = true.
Proof. vm_compute. reflexivity. Qed.

Example evaluate_at_100 :
  ∃ id, Core.evaluate halving_kernels 3 b0_main 100 1 co2_co_o2_table
        = Err (OutOfRangeError id).
Proof. eexists. vm_compute. reflexivity. Qed.

(** C6.  If some species of the table has no segment covering [T], the
    evaluation fails with [OutOfRangeError], naming such a species, and
    yields no outputs; if every species of the table has a segment covering
    [T], the evaluation does not fail with [OutOfRangeError]. *)
Theorem out_of_range_exactly_when_uncovered :
  ∀ (K : Core.Kernels) (max_iter : nat) b0 T P (table : gmap string Core.Species),
    (∀ id sp,
       table !! id = Some sp →
       Forall (λ seg, Core.covers T seg = false)
              (Core.temperature_range_segments sp) →
       ∃ id' sp',
         table !! id' = Some sp' ∧
         Forall (λ seg, Core.covers T seg = false)
                (Core.temperature_range_segments sp') ∧
         Core.evaluate K max_iter b0 T P table = Err (OutOfRangeError id') ∧
         is_ok (Core.evaluate K max_iter b0 T P table) = false) ∧
    ((∀ id sp,
        table !! id = Some sp →
        Exists (λ seg, Core.covers T seg = true)
               (Core.temperature_range_segments sp)) →
     ∀ id', Core.evaluate K max_iter b0 T P table ≠ Err (OutOfRangeError id')).
Proof.
  intros K max_iter b0 T P table. split.
  - intros id sp Hin Hall.
    destruct (lookup_table_uncovered table T id sp Hin Hall) as [e He].
    destruct (lookup_table_Err table T e He) as (id' & sp' & Hin' & -> & Hall').
    exists id', sp'. split; [exact Hin'|]. split; [exact Hall'|].
    assert (Hev : Core.evaluate K max_iter b0 T P table = Err (OutOfRangeError id')).
    { by apply evaluate_solve_Err, solve_equilibrium_Err,
        equilibrium_lookup_Err. }
    rewrite Hev. by split.
  - intros Hcov id' Hev.
    destruct (Core.lookup_table table T) as [th|e] eqn:Hth.
    + destruct (evaluate_covered_Err K max_iter b0 T P table th _ Hth Hev)
        as [H|[H|[H|H]]]; discriminate H.
    + destruct (lookup_table_Err table T e Hth) as (id & sp & Hin & _ & Hall).
      specialize (Hcov id sp Hin).
      apply Exists_exists in Hcov as (seg & Hseg & Hc).
      rewrite Forall_forall in Hall. rewrite (Hall seg Hseg) in Hc.
      discriminate.
Qed.

Lemma out_of_range_exactly_when_uncovered_witness :
  (∃ id' sp',
     co2_co_o2_table !! id' = Some sp' ∧
     Forall (λ seg, Core.covers 7000 seg = false)
            (Core.temperature_range_segments sp') ∧
     Core.evaluate halving_kernels 3 b0_main 7000 1 co2_co_o2_table
       = Err (OutOfRangeError id') ∧
     is_ok (Core.evaluate halving_kernels 3 b0_main 7000 1 co2_co_o2_table)
       = false) ∧
  (∀ id', Core.evaluate halving_kernels 3 b0_main 4000 1 co2_co_o2_table
          ≠ Err (OutOfRangeError id')).
Proof.
  split.
  - apply (proj1 (out_of_range_exactly_when_uncovered
                    halving_kernels 3 b0_main 7000 1 co2_co_o2_table)
             "CO2" {| Core.molecular_weight := 44;
                      Core.element_stoichiometry := [1; 2];
                      Core.temperature_range_segments := two_segments |}).
    + vm_compute. reflexivity.
    + repeat constructor.
  - apply (proj2 (out_of_range_exactly_when_uncovered
                    halving_kernels 3 b0_main 4000 1 co2_co_o2_table)).
    intros id sp Hin. unfold co2_co_o2_table in Hin.
    repeat (apply lookup_insert_Some in Hin as [[_ <-]|[_ Hin]];
            [apply Exists_cons_tl, Exists_cons_hd; reflexivity|]).
    by rewrite lookup_empty in Hin.
Defined.

(** C7.  When the Newton iteration meets its convergence criterion at none
    of the [max_iter] steps of its budget, [solve] fails with
    [ConvergenceError]; whenever [solve] returns mole numbers, they are
    those of an iterate, reached within the budget, at which the criterion
    was met; and with a budget of one step, a composition whose first step
    does not meet the criterion gives [ConvergenceError]. *)
Theorem exhausted_budget_is_ConvergenceError :
  ∀ (K : Core.Kernels) (max_iter : nat) b0 T P (table : gmap string Core.Species),
    (∀ th,
       Core.lookup_table table T = Ok th →
       Core.valid_composition b0 = true →
       (∀ k, (k < max_iter)%nat →
          Core.converged K b0
            (Core.iterate K b0 T P th k (Core.initial_estimate K b0 T P th))
            (Core.iterate K b0 T P th (S k) (Core.initial_estimate K b0 T P th))
          = false) →
       Core.solve K max_iter b0 T P table = Err ConvergenceError) ∧
    (∀ n n_moles,
       Core.solve K max_iter b0 T P table = Ok (n, n_moles) →
       ∃ th k,
         Core.lookup_table table T = Ok th ∧ (k < max_iter)%nat ∧
         Core.converged K b0
           (Core.iterate K b0 T P th k (Core.initial_estimate K b0 T P th))
           (Core.iterate K b0 T P th (S k) (Core.initial_estimate K b0 T P th))
         = true ∧
         Core.composition K
           (Core.iterate K b0 T P th (S k) (Core.initial_estimate K b0 T P th))
         = (n, n_moles)) ∧
    (∀ th,
       Core.lookup_table table T = Ok th →
       Core.valid_composition b0 = true →
       Core.converged K b0 (Core.initial_estimate K b0 T P th)
         (Core.newton_step K b0 T P th (Core.initial_estimate K b0 T P th))
       = false →
       Core.solve K 1 b0 T P table = Err ConvergenceError).
Proof.
  intros K max_iter b0 T P table. split; [|split].
  - intros th Hth Hvalid Hno.
    apply solve_equilibrium_Err.
    rewrite (equilibrium_after_lookup K max_iter _ _ _ _ _ Hth), Hvalid.
    by apply newton_exhausted.
  - intros n n_moles Hsolve.
    unfold Core.solve, mbind, result_bind in Hsolve.
    destruct (Core.equilibrium K max_iter b0 T P table) as [s|e] eqn:Heq;
      [|discriminate].
    injection Hsolve as Hcomp.
    destruct (Core.lookup_table table T) as [th|e] eqn:Hth.
    + rewrite (equilibrium_after_lookup K max_iter _ _ _ _ _ Hth) in Heq.
      destruct (Core.valid_composition b0); [|discriminate].
      apply newton_Ok in Heq as (k & Hk & Hc & ->).
      exists th, k. by repeat split.
    + rewrite (equilibrium_lookup_Err K max_iter _ _ _ _ _ Hth) in Heq.
      discriminate.
  - intros th Hth Hvalid Hfirst.
    apply solve_equilibrium_Err.
    rewrite (equilibrium_after_lookup K 1 _ _ _ _ _ Hth), Hvalid.
    cbn [Core.newton]. by rewrite Hfirst.
Qed.

Lemma exhausted_budget_is_ConvergenceError_witness :
  Core.solve halving_kernels 1 b0_main 4000 1 co2_co_o2_table
  = Err ConvergenceError.
Proof.
  eapply (proj2 (proj2 (exhausted_budget_is_ConvergenceError
                          halving_kernels 1 b0_main 4000 1 co2_co_o2_table))).
  - vm_compute. reflexivity.
  - vm_compute. reflexivity.
  - vm_compute. reflexivity.
Defined.

(** * Further properties of [new_thermo.py] *)

(** ** How [Thermo.setup] fails and what it adds *)

Lemma method_branch_not_CEA mk method d :
  method ≠ PStr "CEA" → method_branch mk method d = Ok no_locals.
Proof.
  intros Hne. apply method_branch_other.
  destruct (eq_str method "CEA") eqn:H; [|reflexivity].
  by apply eq_str_true in H.
Qed.

Lemma method_branch_CEA_no_thermo_data mk d :
  d !! "thermo_data" = None →
  method_branch mk (PStr "CEA") d = Err (KeyError "thermo_data").
Proof. intros H. unfold method_branch, getitem; cbn. by rewrite H. Qed.

Lemma method_branch_CEA_no_elements mk d td :
  d !! "thermo_data" = Some td →
  d !! "elements" = None →
  method_branch mk (PStr "CEA") d = Err (KeyError "elements").
Proof.
  intros Htd Hel. unfold method_branch, getitem; cbn.
  rewrite Htd; cbn. by rewrite Hel.
Qed.

Lemma Thermo_setup_no_dict mk options g0 :
  opt_thermo_dict options = None →
  Thermo_setup mk options g0 = Err (OptionNotSet "thermo_dict").
Proof.
  intros H. unfold Thermo_setup, mbind, setup_bind, lift, get_thermo_dict.
  by rewrite H.
Qed.

Lemma Thermo_setup_no_method mk options d g0 :
  opt_thermo_dict options = Some d →
  d !! "method" = None →
  Thermo_setup mk options g0 = Err (KeyError "method").
Proof.
  intros Hd Hm.
  unfold Thermo_setup, mbind, setup_bind, lift, get_thermo_dict, getitem.
  by rewrite Hd, Hm.
Qed.

(** X2.  A method that is not exactly the string ['CEA'] (another
    backend name, a misspelling, a different case, a value that is not a
    string) is not rejected as such: the statement falls through, nothing
    is assigned, and setup fails with the unbound-name error for
    [base_thermo], whatever else the dict holds. *)
Theorem Thermo_setup_unknown_method :
  ∀ (mk : pyval → pyval → ThermoData) options d method g0,
    opt_thermo_dict options = Some d →
    d !! "method" = Some method →
    method ≠ PStr "CEA" →
    Thermo_setup mk options g0 = Err (UnboundLocalError "base_thermo").
Proof.
  intros mk options d method g0 Hd Hm Hne.
  by rewrite (Thermo_setup_branch mk _ _ _ _ g0 Hd Hm
                (method_branch_not_CEA mk _ _ Hne)).
Qed.

Lemma Thermo_setup_unknown_method_witness :
  Thermo_setup co2_co_o2_Thermo (main_options "cea") empty_group
    = Err (UnboundLocalError "base_thermo") ∧
  Thermo_setup co2_co_o2_Thermo
    (set_thermo_dict (<["method" := PInt 1]> (main_thermo_dict "CEA"))
       Thermo_initialize) empty_group
    = Err (UnboundLocalError "base_thermo").
Proof.
  split.
  - apply (Thermo_setup_unknown_method co2_co_o2_Thermo (main_options "cea")
             (main_thermo_dict "cea") (PStr "cea") empty_group).
    + reflexivity.
    + vm_compute. reflexivity.
    + discriminate.
  - apply (Thermo_setup_unknown_method co2_co_o2_Thermo
             (set_thermo_dict (<["method" := PInt 1]> (main_thermo_dict "CEA"))
                Thermo_initialize)
             (<["method" := PInt 1]> (main_thermo_dict "CEA")) (PInt 1)
             empty_group).
    + reflexivity.
    + vm_compute. reflexivity.
    + discriminate.
Defined.

(** X3.  Missing keys are reported in the order the code reads them: a
    dict without ['method'] gives [KeyError 'method'] whatever else it
    holds; with method ['CEA'], a dict without ['thermo_data'] gives
    [KeyError 'thermo_data'] whether or not ['elements'] is there, and
    ['elements'] is reported only when ['thermo_data'] is present. *)
Theorem Thermo_setup_missing_keys :
  ∀ (mk : pyval → pyval → ThermoData) options d g0,
    opt_thermo_dict options = Some d →
    (d !! "method" = None →
       Thermo_setup mk options g0 = Err (KeyError "method")) ∧
    (d !! "method" = Some (PStr "CEA") → d !! "thermo_data" = None →
       Thermo_setup mk options g0 = Err (KeyError "thermo_data")) ∧
    (d !! "method" = Some (PStr "CEA") → is_Some (d !! "thermo_data") →
     d !! "elements" = None →
       Thermo_setup mk options g0 = Err (KeyError "elements")).
Proof.
  intros mk options d g0 Hd. split; [|split].
  - intros Hm. by apply Thermo_setup_no_method with d.
  - intros Hm Htd.
    by rewrite (Thermo_setup_branch_err mk _ _ _ _ g0 Hd Hm
                  (method_branch_CEA_no_thermo_data mk _ Htd)).
  - intros Hm [td Htd] Hel.
    by rewrite (Thermo_setup_branch_err mk _ _ _ _ g0 Hd Hm
                  (method_branch_CEA_no_elements mk _ _ Htd Hel)).
Qed.

Lemma Thermo_setup_missing_keys_witness :
  Thermo_setup co2_co_o2_Thermo
    (set_thermo_dict (<["method" := PStr "CEA"]> ∅) Thermo_initialize)
    empty_group = Err (KeyError "thermo_data") ∧
  Thermo_setup co2_co_o2_Thermo
    (set_thermo_dict (delete "method" (main_thermo_dict "CEA")) Thermo_initialize)
    empty_group = Err (KeyError "method").
Proof.
  split.
  - apply (proj1 (proj2 (Thermo_setup_missing_keys co2_co_o2_Thermo
             (set_thermo_dict (<["method" := PStr "CEA"]> ∅) Thermo_initialize)
             (<["method" := PStr "CEA"]> ∅) empty_group eq_refl)));
      vm_compute; reflexivity.
  - apply (proj1 (Thermo_setup_missing_keys co2_co_o2_Thermo
             (set_thermo_dict (delete "method" (main_thermo_dict "CEA"))
                Thermo_initialize)
             (delete "method" (main_thermo_dict "CEA")) empty_group eq_refl)).
    vm_compute. reflexivity.
Defined.

(** X4.  When [Thermo.setup] succeeds, on a group that may already hold
    subsystems, it keeps what was there and adds, in this order, the
    equilibrium solver ['thermo_TP'], the group ['props'] and the unit
    conversion ['flow'], all three built on one and the same species data
    object; it adds the defaults for [P] and [T] and makes no connection. *)
Theorem Thermo_setup_extends :
  ∀ (mk : pyval → pyval → ThermoData) options g0 g,
    Thermo_setup mk options g0 = Ok ((), g) →
    ∃ cea_data s_eq s_props s_flow,
      subsystems g = (subsystems g0 ++ [s_eq; s_props; s_flow])%list ∧
      sub_name s_eq = "thermo_TP" ∧ sub_system s_eq = ChemEq cea_data "T" ∧
      sub_name s_props = "props" ∧ sub_system s_props = Properties cea_data ∧
      sub_name s_flow = "flow" ∧
      sub_system s_flow = EngUnitProps cea_data (opt_fl_name options) ∧
      connections g = connections g0 ∧
      input_defaults g =
        (input_defaults g0 ++ [("P", 1, "bar"); ("T", 273, "degK")])%list.
Proof.
  intros mk options g0 g.
  destruct (opt_thermo_dict options) as [d|] eqn:Hd;
    [|by rewrite (Thermo_setup_no_dict mk _ g0 Hd)].
  destruct (d !! "method") as [method|] eqn:Hm;
    [|by rewrite (Thermo_setup_no_method mk _ _ g0 Hd Hm)].
  destruct (eq_str method "CEA") eqn:Hcea.
  - apply eq_str_true in Hcea as ->.
    destruct (d !! "thermo_data") as [td|] eqn:Htd.
    + destruct (d !! "elements") as [el|] eqn:Hel.
      * rewrite (Thermo_setup_CEA mk _ _ _ _ g0 Hd Hm Htd Hel).
        intros [= <-]. exists (mk td el). do 3 eexists.
        cbn [subsystems connections input_defaults].
        split; [reflexivity|]. by repeat split.
      * by rewrite (Thermo_setup_branch_err mk _ _ _ _ g0 Hd Hm
                      (method_branch_CEA_no_elements mk _ _ Htd Hel)).
    + by rewrite (Thermo_setup_branch_err mk _ _ _ _ g0 Hd Hm
                    (method_branch_CEA_no_thermo_data mk _ Htd)).
  - by rewrite (Thermo_setup_branch mk _ _ _ _ g0 Hd Hm
                  (method_branch_other mk _ _ Hcea)).
Qed.

Lemma Thermo_setup_extends_witness :
  ∃ g cea_data s_eq s_props s_flow,
    Thermo_setup co2_co_o2_Thermo (main_options "CEA")
      (Properties_group (co2_co_o2_Thermo (PInt 0) (PInt 0))) = Ok ((), g) ∧
    subsystems g =
      (subsystems (Properties_group (co2_co_o2_Thermo (PInt 0) (PInt 0)))
         ++ [s_eq; s_props; s_flow])%list ∧
    sub_system s_eq = ChemEq cea_data "T" ∧
    sub_system s_props = Properties cea_data ∧
    connections g
      = connections (Properties_group (co2_co_o2_Thermo (PInt 0) (PInt 0))).
Proof.
  destruct (Thermo_setup co2_co_o2_Thermo (main_options "CEA")
              (Properties_group (co2_co_o2_Thermo (PInt 0) (PInt 0))))
    as [[[] g]|e] eqn:H; [|vm_compute in H; discriminate H].
  destruct (Thermo_setup_extends co2_co_o2_Thermo _ _ _ H)
    as (cea & s1 & s2 & s3 & Hs & _ & H1 & _ & H2 & _ & _ & Hc & _).
  exists g, cea, s1, s2, s3. repeat split; assumption.
Defined.

(** ** The wiring of [Properties] is well formed *)

(** X5.  In the group [Properties.setup] builds, for any species data: no
    two subsystems share a name; no input is the target of two
    connections; every connection runs from a subsystem to one added
    after it, so that one pass in the order of addition computes
    everything; and no connected input is also promoted. *)
Theorem Properties_wiring_feed_forward :
  ∀ thermo : ThermoData,
    let g := Properties_group thermo in
    NoDup (sub_name <$> subsystems g) ∧
    NoDup (connections g).*2 ∧
    Forall (λ c, ∃ i j, owner_index g c.1 = Some i ∧
                        owner_index g c.2 = Some j ∧ (i < j)%nat)
           (connections g) ∧
    Forall (λ s, Forall (λ v, v ∉ promotes_inputs s) (connected_inputs g s).*1)
           (subsystems g).
Proof.
  intros thermo g. subst g.
  split; [refine (bool_decide_unpack _ _); vm_compute; exact I|].
  split; [refine (bool_decide_unpack _ _); vm_compute; exact I|].
  split.
  - let l := eval vm_compute in (connections (Properties_group thermo)) in
    change (connections (Properties_group thermo)) with l.
    repeat (apply Forall_cons_2;
              [cbn beta; do 2 eexists;
               split; [vm_compute; reflexivity|];
               split; [vm_compute; reflexivity|]; lia|]).
    apply Forall_nil_2.
  - let l := eval cbv in (subsystems (Properties_group thermo)) in
    change (subsystems (Properties_group thermo)) with l.
    repeat (apply Forall_cons_2;
              [cbn beta; refine (bool_decide_unpack _ _); vm_compute; exact I|]).
    apply Forall_nil_2.
Qed.

(** ** One run of the [Properties] group *)

Section PropertiesRun.

Context {value : Type}.
Variable compute : System → gmap string value → gmap string value.
Variable thermo : ThermoData.

Let g : Group := Properties_group thermo.
Let solver : System := LinearSystemComp (num_element thermo + 1).
Let s_rhs : Subsystem :=
  {| sub_name := "TP2ls"; sub_system := PropsRHS thermo;
     promotes_inputs := ["T"; "n"; "n_moles"; "b0"]; promotes_outputs := [] |}.
Let s_t : Subsystem :=
  {| sub_name := "ls2t"; sub_system := solver;
     promotes_inputs := []; promotes_outputs := [] |}.
Let s_p : Subsystem :=
  {| sub_name := "ls2p"; sub_system := solver;
     promotes_inputs := []; promotes_outputs := [] |}.
Let s_calc : Subsystem :=
  {| sub_name := "tp2props"; sub_system := PropsCalcs thermo;
     promotes_inputs := ["n"; "n_moles"; "T"; "P"];
     promotes_outputs := ["h"; "S"; "gamma"; "Cp"; "Cv"; "rho"; "R"] |}.

(** The environments after the first, second and third subsystem. *)
Let after_rhs (env : @Env value) : Env := run_subsystem compute g env s_rhs.
Let after_t (env : @Env value) : Env := run_subsystem compute g (after_rhs env) s_t.
Let after_p (env : @Env value) : Env := run_subsystem compute g (after_t env) s_p.

Lemma Properties_run_steps (env : @Env value) k :
  run_group compute g env k =
    match local_output s_calc k with
    | Some o => compute (PropsCalcs thermo) (gather g s_calc (after_p env)) !! o
    | None => after_p env k
    end.
Proof. reflexivity. Qed.

Lemma after_p_steps (env : @Env value) k :
  after_p env k =
    match local_output s_p k with
    | Some o => compute solver (gather g s_p (after_t env)) !! o
    | None => after_t env k
    end.
Proof. reflexivity. Qed.

Lemma after_t_steps (env : @Env value) k :
  after_t env k =
    match local_output s_t k with
    | Some o => compute solver (gather g s_t (after_rhs env)) !! o
    | None => after_rhs env k
    end.
Proof. reflexivity. Qed.

Lemma after_rhs_steps (env : @Env value) k :
  after_rhs env k =
    match local_output s_rhs k with
    | Some o => compute (PropsRHS thermo) (gather g s_rhs env) !! o
    | None => env k
    end.
Proof. reflexivity. Qed.

Lemma local_output_None (s : Subsystem) k :
  local_output s k = None ↔
  bool_decide (is_Some (local_name s k)) || bool_decide (k ∈ promotes_outputs s)
    = false.
Proof.
  unfold local_output. destruct (local_name s k) as [o|] eqn:Ho.
  - rewrite bool_decide_eq_true_2 by eauto. cbn. split; discriminate.
  - rewrite (bool_decide_eq_false_2 (is_Some None)) by (intros [? [=]]).
    cbn. destruct (bool_decide (k ∈ promotes_outputs s)); split;
      (discriminate || reflexivity).
Qed.

Lemma owned_false k :
  owned g k = false ↔
  local_output s_rhs k = None ∧ local_output s_t k = None ∧
  local_output s_p k = None ∧ local_output s_calc k = None.
Proof.
  unfold owned. change (subsystems g) with [s_rhs; s_t; s_p; s_calc].
  cbn [existsb]. rewrite !local_output_None, !orb_false_iff. tauto.
Qed.

(** A run leaves every name no subsystem owns as it was. *)
Lemma Properties_run_not_owned (env : @Env value) k :
  owned g k = false → run_group compute g env k = env k.
Proof.
  intros (H1 & H2 & H3 & H4)%owned_false.
  by rewrite Properties_run_steps, H4, after_p_steps, H3, after_t_steps, H2,
    after_rhs_steps, H1.
Qed.

Lemma inputs_seen_builder (env : @Env value) :
  inputs_seen compute g env "TP2ls" = Some (gather g s_rhs env).
Proof. reflexivity. Qed.

Lemma inputs_seen_calculator (env : @Env value) :
  inputs_seen compute g env "tp2props" = Some (gather g s_calc (after_p env)).
Proof. reflexivity. Qed.

(** The value a run leaves under a promoted output is the one the property
    calculator computed. *)
Lemma Properties_run_property (env : @Env value) k :
  k ∈ ["h"; "S"; "gamma"; "Cp"; "Cv"; "rho"; "R"] →
  run_group compute g env k
  = compute (PropsCalcs thermo) (gather g s_calc (after_p env)) !! k.
Proof.
  intros Hk. rewrite Properties_run_steps.
  repeat (apply elem_of_cons in Hk as [->|Hk]; [reflexivity|]).
  by apply elem_of_nil in Hk.
Qed.

Section Agree.

Variables env1 env2 : @Env value.
Hypothesis HT : env1 "T" = env2 "T".
Hypothesis Hn : env1 "n" = env2 "n".
Hypothesis Hnm : env1 "n_moles" = env2 "n_moles".
Hypothesis Hb0 : env1 "b0" = env2 "b0".

Lemma gather_rhs_agree : gather g s_rhs env1 = gather g s_rhs env2.
Proof. apply gather_ext. repeat constructor; assumption. Qed.

Lemma after_rhs_agree k o :
  local_output s_rhs k = Some o → after_rhs env1 k = after_rhs env2 k.
Proof.
  intros Ho. by rewrite !after_rhs_steps, Ho, gather_rhs_agree.
Qed.

Lemma gather_t_agree :
  gather g s_t (after_rhs env1) = gather g s_t (after_rhs env2).
Proof.
  apply gather_ext.
  apply Forall_cons_2; [|apply Forall_cons_2; [|apply Forall_nil_2]].
  - change (after_rhs env1 "TP2ls.lhs_TP" = after_rhs env2 "TP2ls.lhs_TP").
    by apply after_rhs_agree with "lhs_TP".
  - change (after_rhs env1 "TP2ls.rhs_T" = after_rhs env2 "TP2ls.rhs_T").
    by apply after_rhs_agree with "rhs_T".
Qed.

Lemma gather_p_agree :
  gather g s_p (after_t env1) = gather g s_p (after_t env2).
Proof.
  apply gather_ext.
  apply Forall_cons_2; [|apply Forall_cons_2; [|apply Forall_nil_2]].
  - change (after_rhs env1 "TP2ls.lhs_TP" = after_rhs env2 "TP2ls.lhs_TP").
    by apply after_rhs_agree with "lhs_TP".
  - change (after_rhs env1 "TP2ls.rhs_P" = after_rhs env2 "TP2ls.rhs_P").
    by apply after_rhs_agree with "rhs_P".
Qed.

(** After the first three subsystems, the two environments agree on every
    name one of these three owns. *)
Lemma after_p_agree k :
  is_Some (local_output s_rhs k) ∨ is_Some (local_output s_t k)
    ∨ is_Some (local_output s_p k) →
  after_p env1 k = after_p env2 k.
Proof.
  intros Hown. rewrite !after_p_steps.
  destruct (local_output s_p k) as [o|] eqn:Hp; [by rewrite gather_p_agree|].
  rewrite !after_t_steps.
  destruct (local_output s_t k) as [o|] eqn:Ht; [by rewrite gather_t_agree|].
  destruct (local_output s_rhs k) as [o|] eqn:Hr;
    [by apply after_rhs_agree with o|].
  destruct Hown as [[? [=]]|[[? [=]]|[? [=]]]].
Qed.

(** X8.  Pressure does not reach the sensitivity solves.  Two runs that
    agree on [T], [n], [n_moles] and [b0], whatever their [P] and whatever
    else the group held before, give the two linear systems the same
    inputs and end with the same solutions [ls2t.x] and [ls2p.x]. *)
Theorem sensitivity_solutions_ignore_P :
  inputs_seen compute (Properties_group thermo) env1 "ls2t"
    = inputs_seen compute (Properties_group thermo) env2 "ls2t" ∧
  inputs_seen compute (Properties_group thermo) env1 "ls2p"
    = inputs_seen compute (Properties_group thermo) env2 "ls2p" ∧
  run_group compute (Properties_group thermo) env1 "ls2t.x"
    = run_group compute (Properties_group thermo) env2 "ls2t.x" ∧
  run_group compute (Properties_group thermo) env1 "ls2p.x"
    = run_group compute (Properties_group thermo) env2 "ls2p.x".
Proof.
  split; [|split; [|split]].
  - change (Some (gather g s_t (after_rhs env1))
            = Some (gather g s_t (after_rhs env2))).
    by rewrite gather_t_agree.
  - change (Some (gather g s_p (after_t env1))
            = Some (gather g s_p (after_t env2))).
    by rewrite gather_p_agree.
  - change (after_p env1 "ls2t.x" = after_p env2 "ls2t.x").
    apply after_p_agree. right; left. by eexists.
  - change (after_p env1 "ls2p.x" = after_p env2 "ls2p.x").
    apply after_p_agree. right; right. by eexists.
Qed.

Hypothesis HP : env1 "P" = env2 "P".

Lemma gather_calc_agree :
  gather g s_calc (after_p env1) = gather g s_calc (after_p env2).
Proof.
  apply gather_ext.
  repeat (apply Forall_cons_2; [try assumption|]); [| |apply Forall_nil_2].
  - change (after_p env1 "ls2t.x" = after_p env2 "ls2t.x").
    apply after_p_agree. right; left. by eexists.
  - change (after_p env1 "ls2p.x" = after_p env2 "ls2p.x").
    apply after_p_agree. right; right. by eexists.
Qed.

(** The two runs agree on every name the group owns. *)
Lemma Properties_run_agree k :
  owned g k = true → run_group compute g env1 k = run_group compute g env2 k.
Proof.
  intros Hown. rewrite !Properties_run_steps.
  destruct (local_output s_calc k) as [o|] eqn:Hc;
    [by rewrite gather_calc_agree|].
  apply after_p_agree.
  destruct (local_output s_rhs k) eqn:Hr; [left; eauto|].
  destruct (local_output s_t k) eqn:Ht; [right; left; eauto|].
  destruct (local_output s_p k) eqn:Hp; [right; right; eauto|].
  assert (owned g k = false) by (by apply owned_false).
  congruence.
Qed.

(** X6.  A run of [Properties] is a function of its five inputs.  Two runs
    that agree on [T], [P], [n], [n_moles] and [b0] end with the same value
    under every name the group owns, whatever else was held before the
    run: stale values of intermediate variables or of outputs never reach
    a result.  The seven properties [h, S, gamma, Cp, Cv, rho, R] are
    among the owned names. *)
Theorem Properties_function_of_five_inputs :
  (∀ k, owned (Properties_group thermo) k = true →
     run_group compute (Properties_group thermo) env1 k
     = run_group compute (Properties_group thermo) env2 k) ∧
  Forall (λ k, owned (Properties_group thermo) k = true
               ∧ run_group compute (Properties_group thermo) env1 k
                 = run_group compute (Properties_group thermo) env2 k)
         ["h"; "S"; "gamma"; "Cp"; "Cv"; "rho"; "R"].
Proof.
  split; [exact Properties_run_agree|].
  repeat (apply Forall_cons_2;
            [split; [reflexivity | by apply Properties_run_agree]|]).
  apply Forall_nil_2.
Qed.

End Agree.

Lemma Properties_run_keeps_inputs (env : @Env value) :
  run_group compute g env "T" = env "T" ∧
  run_group compute g env "P" = env "P" ∧
  run_group compute g env "n" = env "n" ∧
  run_group compute g env "n_moles" = env "n_moles" ∧
  run_group compute g env "b0" = env "b0".
Proof. by repeat split. Qed.

(** X7.  Running [Properties] again on what a run left changes nothing:
    every name has the value the first run gave it.  The group's five
    inputs are never written by a run. *)
Theorem Properties_run_idempotent :
  ∀ (env : @Env value),
    (∀ k, run_group compute (Properties_group thermo)
            (run_group compute (Properties_group thermo) env) k
          = run_group compute (Properties_group thermo) env k) ∧
    Forall (λ k, owned (Properties_group thermo) k = false
                 ∧ run_group compute (Properties_group thermo) env k = env k)
           ["T"; "P"; "n"; "n_moles"; "b0"].
Proof.
  intros env. split.
  - intros k. destruct (owned g k) eqn:Hown.
    + by apply Properties_run_agree.
    + by rewrite !Properties_run_not_owned.
  - repeat (apply Forall_cons_2; [by split|]). apply Forall_nil_2.
Qed.

End PropertiesRun.

Lemma sensitivity_solutions_ignore_P_witness :
  run_group b0_as_rhs_P (Properties_group (co2_co_o2_Thermo (PInt 0) (PInt 0)))
    (scenario_env b0_main) "ls2p.x"
  = run_group b0_as_rhs_P (Properties_group (co2_co_o2_Thermo (PInt 0) (PInt 0)))
    (λ k, if bool_decide (k = "P") then Some [2%Q] else scenario_env b0_main k)
    "ls2p.x".
Proof.
  refine (proj2 (proj2 (proj2
    (sensitivity_solutions_ignore_P b0_as_rhs_P
       (co2_co_o2_Thermo (PInt 0) (PInt 0))
       (scenario_env b0_main)
       (λ k, if bool_decide (k = "P") then Some [2%Q] else scenario_env b0_main k)
       _ _ _ _)))); reflexivity.
Defined.

Lemma Properties_function_of_five_inputs_witness :
  run_group b0_as_rhs_P (Properties_group (co2_co_o2_Thermo (PInt 0) (PInt 0)))
    (scenario_env b0_main) "TP2ls.rhs_P"
  = run_group b0_as_rhs_P (Properties_group (co2_co_o2_Thermo (PInt 0) (PInt 0)))
    (λ k, if bool_decide (k = "TP2ls.rhs_P") then Some [9%Q]
          else scenario_env b0_main k)
    "TP2ls.rhs_P".
Proof.
  refine (proj1
    (Properties_function_of_five_inputs b0_as_rhs_P
       (co2_co_o2_Thermo (PInt 0) (PInt 0))
       (scenario_env b0_main)
       (λ k, if bool_decide (k = "TP2ls.rhs_P") then Some [9%Q]
             else scenario_env b0_main k)
       _ _ _ _ _) "TP2ls.rhs_P" _); reflexivity.
Defined.

(** ** The [Thermo] model as a whole *)

(** The model [Thermo.setup] builds on an empty group for a species data
    object and a flow-station name. *)
Lemma built_Thermo_inv (mk : pyval → pyval → ThermoData) options g :
  built (Thermo_setup mk options) = Ok g →
  ∃ cea_data,
    g = {| subsystems :=
             [ {| sub_name := "thermo_TP"; sub_system := ChemEq cea_data "T";
                  promotes_inputs := ["b0"; "T"; "P"];
                  promotes_outputs := ["n"; "n_moles"] |};
               {| sub_name := "props"; sub_system := Properties cea_data;
                  promotes_inputs := ["T"; "P"; "n"; "n_moles"; "b0"];
                  promotes_outputs :=
                    ["gamma"; "Cp"; "Cv"; "rho"; "R"; "S"; "h"] |};
               {| sub_name := "flow";
                  sub_system := EngUnitProps cea_data (opt_fl_name options);
                  promotes_inputs :=
                    ["T"; "P"; "h"; "S"; "gamma"; "Cp"; "Cv"; "rho"; "n";
                     "n_moles"; "R"; "b0"];
                  promotes_outputs := [(opt_fl_name options ++ ":*")%string] |} ];
           connections := [];
           input_defaults := [("P", 1, "bar"); ("T", 273, "degK")] |}.
Proof.
  unfold built.
  destruct (opt_thermo_dict options) as [d|] eqn:Hd;
    [|by rewrite (Thermo_setup_no_dict mk _ _ Hd)].
  destruct (d !! "method") as [method|] eqn:Hm;
    [|by rewrite (Thermo_setup_no_method mk _ _ _ Hd Hm)].
  destruct (eq_str method "CEA") eqn:Hcea.
  - apply eq_str_true in Hcea as ->.
    destruct (d !! "thermo_data") as [td|] eqn:Htd.
    + destruct (d !! "elements") as [el|] eqn:Hel.
      * rewrite (Thermo_setup_CEA mk _ _ _ _ _ Hd Hm Htd Hel).
        intros [= <-]. by exists (mk td el).
      * by rewrite (Thermo_setup_branch_err mk _ _ _ _ _ Hd Hm
                      (method_branch_CEA_no_elements mk _ _ Htd Hel)).
    + by rewrite (Thermo_setup_branch_err mk _ _ _ _ _ Hd Hm
                    (method_branch_CEA_no_thermo_data mk _ Htd)).
  - by rewrite (Thermo_setup_branch mk _ _ _ _ _ Hd Hm
                  (method_branch_other mk _ _ Hcea)).
Qed.

(** X9.  In every model [Thermo.setup] builds, whatever the flow-station
    name, the inputs that must come from outside are [T], [P] and [b0] and
    no others: every other promoted input of a stage is a promoted output
    of a stage added before it.  Setup gives a default to [P] and to [T];
    [b0] is the one free input without a default. *)
Theorem Thermo_free_inputs :
  ∀ (mk : pyval → pyval → ThermoData) options g,
    built (Thermo_setup mk options) = Ok g →
    free_inputs g = ["T"; "P"; "b0"] ∧
    (input_defaults g).*1.*1 = ["P"; "T"] ∧
    filter (λ v, v ∉ (input_defaults g).*1.*1) (free_inputs g) = ["b0"].
Proof.
  intros mk options g [cea ->]%built_Thermo_inv.
  split; [vm_compute; reflexivity|]. split; [reflexivity|].
  vm_compute. reflexivity.
Qed.

Lemma Thermo_free_inputs_witness :
  ∃ g, built (Thermo_setup co2_co_o2_Thermo
                (set_fl_name "Fl_O:tot" (main_options "CEA"))) = Ok g ∧
       free_inputs g = ["T"; "P"; "b0"].
Proof.
  destruct (built (Thermo_setup co2_co_o2_Thermo
                     (set_fl_name "Fl_O:tot" (main_options "CEA"))))
    as [g|e] eqn:H; [|vm_compute in H; discriminate H].
  exists g. split; [reflexivity|].
  exact (proj1 (Thermo_free_inputs co2_co_o2_Thermo _ g H)).
Defined.

(** X10.  The two classes agree on the interface of the property group:
    the inputs [Thermo.setup] promotes from ['props'] are, as a set, the
    inputs [Properties.setup] leaves free, [T, P, n, n_moles, b0]; none is
    missing and none is promoted that the group does not have. *)
Theorem props_promotes_free_inputs :
  ∀ (mk : pyval → pyval → ThermoData) options g,
    built (Thermo_setup mk options) = Ok g →
    ∃ s cea_data,
      find_subsystem g "props" = Some s ∧
      sub_system s = Properties cea_data ∧
      free_inputs (Properties_group cea_data)
        = ["b0"; "n"; "n_moles"; "T"; "P"] ∧
      (list_to_set (promotes_inputs s) : gset string)
        = list_to_set (free_inputs (Properties_group cea_data)).
Proof.
  intros mk options g [cea ->]%built_Thermo_inv.
  do 2 eexists. split; [reflexivity|]. split; [reflexivity|].
  split; [reflexivity|]. vm_compute. reflexivity.
Qed.

Lemma props_promotes_free_inputs_witness :
  ∃ g s cea_data,
    built (Thermo_setup co2_co_o2_Thermo (main_options "CEA")) = Ok g ∧
    find_subsystem g "props" = Some s ∧
    (list_to_set (promotes_inputs s) : gset string)
      = list_to_set (free_inputs (Properties_group cea_data)).
Proof.
  destruct (built (Thermo_setup co2_co_o2_Thermo (main_options "CEA")))
    as [g|e] eqn:H; [|vm_compute in H; discriminate H].
  destruct (props_promotes_free_inputs co2_co_o2_Thermo _ g H)
    as (s & cea & Hs & _ & _ & Hset).
  exists g, s, cea. by repeat split.
Defined.

(** X11.  Nothing is lost before the unit conversion: the inputs
    [Thermo.setup] promotes into ['flow'] are, as a set, the three free
    inputs of the model together with the promoted outputs of the two
    stages before it, [n, n_moles] and the seven properties. *)
Theorem flow_receives_everything :
  ∀ (mk : pyval → pyval → ThermoData) options g,
    built (Thermo_setup mk options) = Ok g →
    ∃ s_eq s_props s_flow,
      subsystems g = [s_eq; s_props; s_flow] ∧
      sub_name s_flow = "flow" ∧
      (list_to_set (promotes_inputs s_flow) : gset string)
        = list_to_set (free_inputs g)
          ∪ list_to_set (promotes_outputs s_eq)
          ∪ list_to_set (promotes_outputs s_props).
Proof.
  intros mk options g [cea ->]%built_Thermo_inv.
  do 3 eexists. split; [reflexivity|]. split; [reflexivity|].
  vm_compute. reflexivity.
Qed.

Lemma flow_receives_everything_witness :
  ∃ g s_eq s_props s_flow,
    built (Thermo_setup co2_co_o2_Thermo (main_options "CEA")) = Ok g ∧
    subsystems g = [s_eq; s_props; s_flow] ∧
    (list_to_set (promotes_inputs s_flow) : gset string)
      = list_to_set (free_inputs g)
        ∪ list_to_set (promotes_outputs s_eq)
        ∪ list_to_set (promotes_outputs s_props).
Proof.
  destruct (built (Thermo_setup co2_co_o2_Thermo (main_options "CEA")))
    as [g|e] eqn:H; [|vm_compute in H; discriminate H].
  destruct (flow_receives_everything co2_co_o2_Thermo _ g H)
    as (s1 & s2 & s3 & Hs & _ & Hset).
  exists g, s1, s2, s3. by repeat split.
Defined.

(** ** One run of the [Thermo] model *)

Section ModelRun.

Context {value : Type}.
Variable compute : System → gmap string value → gmap string value.
Variable solve :
  System → gmap string value → (string → option value) → gmap string value.
Variable cea_data : ThermoData.
Variable fl_name : string.

Let s_eq : Subsystem :=
  {| sub_name := "thermo_TP"; sub_system := ChemEq cea_data "T";
     promotes_inputs := ["b0"; "T"; "P"];
     promotes_outputs := ["n"; "n_moles"] |}.
Let s_props : Subsystem :=
  {| sub_name := "props"; sub_system := Properties cea_data;
     promotes_inputs := ["T"; "P"; "n"; "n_moles"; "b0"];
     promotes_outputs := ["gamma"; "Cp"; "Cv"; "rho"; "R"; "S"; "h"] |}.
Let s_flow : Subsystem :=
  {| sub_name := "flow"; sub_system := EngUnitProps cea_data fl_name;
     promotes_inputs :=
       ["T"; "P"; "h"; "S"; "gamma"; "Cp"; "Cv"; "rho"; "n"; "n_moles";
        "R"; "b0"];
     promotes_outputs := [(fl_name ++ ":*")%string] |}.
Let model : Group :=
  {| subsystems := [s_eq; s_props; s_flow];
     connections := [];
     input_defaults := [("P", 1, "bar"); ("T", 273, "degK")] |}.

Let after_eq (env : @Env value) : Env := run_stage compute solve model env s_eq.
Let solution (env : @Env value) : gmap string value :=
  solve (ChemEq cea_data "T") (gather model s_eq env) (held_outputs s_eq env).

Ltac in_list := by repeat constructor.

Ltac each_of H tac :=
  repeat (apply elem_of_cons in H as [->|H]; [tac|]);
  by apply elem_of_nil in H.

Lemma stage_inputs_eq (env : @Env value) :
  stage_inputs compute solve model env "thermo_TP" = Some (gather model s_eq env).
Proof. reflexivity. Qed.

Lemma stage_inputs_props (env : @Env value) :
  stage_inputs compute solve model env "props"
  = Some (gather model s_props (after_eq env)).
Proof. reflexivity. Qed.

Lemma stage_outputs_props (env : @Env value) :
  stage_outputs compute solve model (after_eq env) s_props
  = run_Properties compute cea_data (gather model s_props (after_eq env)).
Proof. reflexivity. Qed.

Lemma solver_gets (env : @Env value) v :
  v ∈ ["b0"; "T"; "P"] → gather model s_eq env !! v = env v.
Proof. exact (gather_promoted model s_eq env v). Qed.

Lemma props_gets (env : @Env value) v :
  v ∈ ["T"; "P"; "n"; "n_moles"; "b0"] →
  gather model s_props (after_eq env) !! v = after_eq env v.
Proof. exact (gather_promoted model s_props (after_eq env) v). Qed.

Lemma after_eq_solution (env : @Env value) v :
  v ∈ ["n"; "n_moles"] → after_eq env v = solution env !! v.
Proof. intros Hv. each_of Hv ltac:(reflexivity). Qed.

Lemma after_eq_input (env : @Env value) v :
  v ∈ ["T"; "P"; "b0"] → after_eq env v = env v.
Proof. intros Hv. each_of Hv ltac:(reflexivity). Qed.

(** Inside the property group, the builder and the calculator read their
    promoted inputs from the inputs dict of the group. *)
Lemma builder_gets (inputs : gmap string value) v :
  v ∈ ["T"; "n"; "n_moles"; "b0"] →
  gather (Properties_group cea_data)
    {| sub_name := "TP2ls"; sub_system := PropsRHS cea_data;
       promotes_inputs := ["T"; "n"; "n_moles"; "b0"];
       promotes_outputs := [] |} (λ k, inputs !! k) !! v
  = inputs !! v.
Proof. intros Hv. by rewrite gather_promoted. Qed.

Lemma calculator_gets (inputs : gmap string value) ins v :
  inputs_seen compute (Properties_group cea_data) (λ k, inputs !! k) "tp2props"
    = Some ins →
  v ∈ ["n"; "n_moles"; "T"; "P"] → ins !! v = inputs !! v.
Proof.
  rewrite inputs_seen_calculator. intros [= <-] Hv.
  rewrite gather_promoted by exact Hv. each_of Hv ltac:(reflexivity).
Qed.

(** What the property group hands on under one of its promoted outputs is
    what its property calculator computed in its own run. *)
Lemma run_Properties_output (inputs : gmap string value) k :
  k ∈ ["h"; "S"; "gamma"; "Cp"; "Cv"; "rho"; "R"] →
  run_Properties compute cea_data inputs !! k
  = (inputs_seen compute (Properties_group cea_data) (λ v, inputs !! v)
       "tp2props"
     ≫= λ ins, compute (PropsCalcs cea_data) ins !! k).
Proof.
  intros Hk. unfold run_Properties. cbn zeta.
  rewrite (list_to_map_omap_lookup
             (run_group compute (Properties_group cea_data) (λ v, inputs !! v))).
  change (promoted_outputs (Properties_group cea_data))
    with ["h"; "S"; "gamma"; "Cp"; "Cv"; "rho"; "R"].
  rewrite bool_decide_eq_true_2 by exact Hk.
  by rewrite (Properties_run_property compute cea_data _ k Hk),
    inputs_seen_calculator.
Qed.

(** How the solver and the property group compose in one run. *)
Lemma model_stages_compose (env : @Env value) :
  ∃ ins_eq ins_props ins_rhs ins_calc,
    stage_inputs compute solve model env "thermo_TP" = Some ins_eq ∧
    stage_inputs compute solve model env "props" = Some ins_props ∧
    inputs_seen compute (Properties_group cea_data) (λ v, ins_props !! v)
      "TP2ls" = Some ins_rhs ∧
    inputs_seen compute (Properties_group cea_data) (λ v, ins_props !! v)
      "tp2props" = Some ins_calc ∧
    Forall (λ v, ins_eq !! v = env v) ["b0"; "T"; "P"] ∧
    Forall (λ v,
              ins_props !! v
                = solve (ChemEq cea_data "T") ins_eq (held_outputs s_eq env) !! v
              ∧ ins_rhs !! v
                = solve (ChemEq cea_data "T") ins_eq (held_outputs s_eq env) !! v
              ∧ ins_calc !! v
                = solve (ChemEq cea_data "T") ins_eq (held_outputs s_eq env) !! v)
           ["n"; "n_moles"] ∧
    Forall (λ v, ins_props !! v = env v) ["T"; "P"; "b0"] ∧
    Forall (λ v, ins_rhs !! v = env v) ["T"; "b0"] ∧
    Forall (λ v, ins_calc !! v = env v) ["T"; "P"] ∧
    Forall (λ k, stage_outputs compute solve model
                   (run_stage compute solve model env s_eq) s_props !! k
                 = compute (PropsCalcs cea_data) ins_calc !! k)
           ["h"; "S"; "gamma"; "Cp"; "Cv"; "rho"; "R"].
Proof.
  set (ins_eq := gather model s_eq env).
  set (ins_props := gather model s_props (after_eq env)).
  pose proof (inputs_seen_builder compute cea_data (λ v, ins_props !! v)) as Hrhs.
  pose proof (inputs_seen_calculator compute cea_data (λ v, ins_props !! v))
    as Hcalc.
  exists ins_eq, ins_props. do 2 eexists.
  split; [apply stage_inputs_eq|]. split; [apply stage_inputs_props|].
  split; [exact Hrhs|]. split; [exact Hcalc|].
  assert (Hsol : ∀ v, v ∈ ["n"; "n_moles"] → ins_props !! v = solution env !! v).
  { intros v Hv. unfold ins_props. rewrite props_gets by each_of Hv in_list.
    by apply after_eq_solution. }
  assert (Hin : ∀ v, v ∈ ["T"; "P"; "b0"] → ins_props !! v = env v).
  { intros v Hv. unfold ins_props. rewrite props_gets by each_of Hv in_list.
    by apply after_eq_input. }
  split; [apply Forall_forall; intros v Hv; by apply solver_gets|].
  split.
  { apply Forall_forall. intros v Hv. split; [by apply Hsol|]. split.
    - rewrite builder_gets by each_of Hv in_list. by apply Hsol.
    - rewrite (calculator_gets _ _ v Hcalc) by each_of Hv in_list. by apply Hsol. }
  split; [apply Forall_forall; intros v Hv; by apply Hin|].
  split.
  { apply Forall_forall. intros v Hv.
    rewrite builder_gets by each_of Hv in_list. apply Hin. each_of Hv in_list. }
  split.
  { apply Forall_forall. intros v Hv.
    rewrite (calculator_gets _ _ v Hcalc) by each_of Hv in_list.
    apply Hin. each_of Hv in_list. }
  apply Forall_forall. intros k Hk.
  change (run_stage compute solve model env s_eq) with (after_eq env).
  rewrite stage_outputs_props, (run_Properties_output _ k Hk).
  fold ins_props. by rewrite Hcalc.
Qed.

Section AgreeOnInputs.

Variables env1 env2 : @Env value.
Hypothesis Hsolve : ∀ s inputs held1 held2,
  (∀ o, held1 o = held2 o) → solve s inputs held1 = solve s inputs held2.
Hypothesis Hb0 : env1 "b0" = env2 "b0".
Hypothesis HT : env1 "T" = env2 "T".
Hypothesis HP : env1 "P" = env2 "P".
Hypothesis Hheld : ∀ o, held_outputs s_eq env1 o = held_outputs s_eq env2 o.

Lemma solver_inputs_agree : gather model s_eq env1 = gather model s_eq env2.
Proof. apply gather_ext. repeat constructor; assumption. Qed.

Lemma solution_agree : solution env1 = solution env2.
Proof.
  unfold solution. rewrite solver_inputs_agree. by apply Hsolve.
Qed.

Lemma after_eq_agree v :
  v ∈ ["T"; "P"; "n"; "n_moles"; "b0"] → after_eq env1 v = after_eq env2 v.
Proof.
  intros Hv. apply elem_of_cons in Hv as [->|Hv]; [exact HT|].
  apply elem_of_cons in Hv as [->|Hv]; [exact HP|].
  apply elem_of_cons in Hv as [->|Hv].
  { rewrite !(after_eq_solution _ "n" ltac:(in_list)). by rewrite solution_agree. }
  apply elem_of_cons in Hv as [->|Hv].
  { rewrite !(after_eq_solution _ "n_moles" ltac:(in_list)).
    by rewrite solution_agree. }
  apply elem_of_cons in Hv as [->|Hv]; [exact Hb0|].
  by apply elem_of_nil in Hv.
Qed.

Lemma props_inputs_agree :
  gather model s_props (after_eq env1) = gather model s_props (after_eq env2).
Proof.
  apply gather_ext. apply Forall_forall. intros v Hv.
  change (v ∈ ["T"; "P"; "n"; "n_moles"; "b0"]) in Hv.
  assert (Hsrc : input_source model s_props v = Some v).
  { unfold input_source. by rewrite bool_decide_eq_true_2 by exact Hv. }
  rewrite Hsrc. by apply after_eq_agree.
Qed.

Lemma model_agree :
  stage_inputs compute solve model env1 "thermo_TP"
    = stage_inputs compute solve model env2 "thermo_TP" ∧
  stage_outputs compute solve model env1 s_eq
    = stage_outputs compute solve model env2 s_eq ∧
  stage_inputs compute solve model env1 "props"
    = stage_inputs compute solve model env2 "props" ∧
  stage_outputs compute solve model (run_stage compute solve model env1 s_eq)
      s_props
    = stage_outputs compute solve model (run_stage compute solve model env2 s_eq)
      s_props.
Proof.
  rewrite !stage_inputs_eq, !stage_inputs_props.
  change (run_stage compute solve model env1 s_eq) with (after_eq env1).
  change (run_stage compute solve model env2 s_eq) with (after_eq env2).
  rewrite !stage_outputs_props.
  rewrite solver_inputs_agree, props_inputs_agree.
  repeat split. exact solution_agree.
Qed.

End AgreeOnInputs.

End ModelRun.

(** X12.  How the equilibrium solver and the property group compose in one
    run of a model [Thermo.setup] built, for any behaviour of the
    components.  The solver receives the model's [b0], [T] and [P].  The
    [n] and [n_moles] it leaves, from these inputs and from the outputs it
    held, are what the property group, the sensitivity builder and the
    property calculator inside it receive under these names: a value the
    model held under [n] before the run is never read by them.  The group,
    the builder and the calculator see the same [T], [P] and [b0] as the
    solver, and the seven outputs of the group are those its calculator
    computed.  Nothing is stated about what the unit conversion receives:
    the units its inputs declare are not in this file. *)
Theorem Thermo_stages_compose :
  ∀ (value : Type) (compute : System → gmap string value → gmap string value)
    (solve : System → gmap string value → (string → option value)
             → gmap string value)
    (mk : pyval → pyval → ThermoData) options g (env : @Env value),
    built (Thermo_setup mk options) = Ok g →
    ∃ cea_data s_eq s_props ins_eq ins_props ins_rhs ins_calc,
      find_subsystem g "thermo_TP" = Some s_eq ∧
      sub_system s_eq = ChemEq cea_data "T" ∧
      find_subsystem g "props" = Some s_props ∧
      sub_system s_props = Properties cea_data ∧
      stage_inputs compute solve g env "thermo_TP" = Some ins_eq ∧
      stage_inputs compute solve g env "props" = Some ins_props ∧
      inputs_seen compute (Properties_group cea_data) (λ v, ins_props !! v)
        "TP2ls" = Some ins_rhs ∧
      inputs_seen compute (Properties_group cea_data) (λ v, ins_props !! v)
        "tp2props" = Some ins_calc ∧
      Forall (λ v, ins_eq !! v = env v) ["b0"; "T"; "P"] ∧
      Forall (λ v,
                ins_props !! v
                  = solve (ChemEq cea_data "T") ins_eq (held_outputs s_eq env) !! v
                ∧ ins_rhs !! v
                  = solve (ChemEq cea_data "T") ins_eq (held_outputs s_eq env) !! v
                ∧ ins_calc !! v
                  = solve (ChemEq cea_data "T") ins_eq (held_outputs s_eq env) !! v)
             ["n"; "n_moles"] ∧
      Forall (λ v, ins_props !! v = env v) ["T"; "P"; "b0"] ∧
      Forall (λ v, ins_rhs !! v = env v) ["T"; "b0"] ∧
      Forall (λ v, ins_calc !! v = env v) ["T"; "P"] ∧
      Forall (λ k, stage_outputs compute solve g
                     (run_stage compute solve g env s_eq) s_props !! k
                   = compute (PropsCalcs cea_data) ins_calc !! k)
             ["h"; "S"; "gamma"; "Cp"; "Cv"; "rho"; "R"].
Proof.
  intros value compute solve mk options g env [cea ->]%built_Thermo_inv.
  destruct (model_stages_compose compute solve cea (opt_fl_name options) env)
    as (ins_eq & ins_props & ins_rhs & ins_calc & H).
  exists cea. do 2 eexists. exists ins_eq, ins_props, ins_rhs, ins_calc.
  split; [reflexivity|]. split; [reflexivity|].
  split; [reflexivity|]. split; [reflexivity|]. exact H.
Qed.

Lemma Thermo_stages_compose_witness :
  ∃ ins_eq ins_props ins_rhs,
    built (Thermo_setup co2_co_o2_Thermo (main_options "CEA")) = Ok main_group ∧
    stage_inputs b0_as_rhs_P keeps_held_n main_group cold_env "thermo_TP"
      = Some ins_eq ∧
    stage_inputs b0_as_rhs_P keeps_held_n main_group cold_env "props"
      = Some ins_props ∧
    inputs_seen b0_as_rhs_P (Properties_group main_cea_data)
      (λ v, ins_props !! v) "TP2ls" = Some ins_rhs ∧
    ins_eq !! "b0" = Some b0_main ∧
    ins_eq !! "T" = Some [4000%Q] ∧
    ins_props !! "n" = Some b0_main ∧
    ins_rhs !! "n" = Some b0_main ∧
    ins_rhs !! "T" = Some [4000%Q].
Proof.
  assert (H : built (Thermo_setup co2_co_o2_Thermo (main_options "CEA"))
              = Ok main_group) by (vm_compute; reflexivity).
  destruct (Thermo_stages_compose (list Q) b0_as_rhs_P keeps_held_n
              co2_co_o2_Thermo _ main_group cold_env H)
    as (cea & s_eq & s_props & ins_eq & ins_props & ins_rhs & ins_calc
        & Hs & Hsys & _ & _ & Heq & Hprops & Hrhs & _ & Hb & Hn & _ & Hin & _).
  injection Hs as <-. injection Hsys as <-.
  exists ins_eq, ins_props, ins_rhs.
  apply Forall_cons in Hb as [Hb0 [HT _]%Forall_cons].
  apply Forall_cons in Hn as [(Hn1 & Hn2 & _) _].
  apply Forall_cons in Hin as [Hin _].
  assert (Hsol : keeps_held_n (ChemEq main_cea_data "T") ins_eq
                   (held_outputs
                      {| sub_name := "thermo_TP";
                         sub_system := ChemEq main_cea_data "T";
                         promotes_inputs := ["b0"; "T"; "P"];
                         promotes_outputs := ["n"; "n_moles"] |} cold_env) !! "n"
                 = Some b0_main).
  { unfold keeps_held_n.
    change (held_outputs _ cold_env "n") with (@None (list Q)).
    rewrite Hb0, HT. reflexivity. }
  split; [exact H|]. split; [exact Heq|]. split; [exact Hprops|].
  split; [exact Hrhs|]. split; [exact Hb0|]. split; [exact HT|].
  split; [by rewrite Hn1|]. split; [by rewrite Hn2|]. exact Hin.
Defined.

(** X13.  The only state a run of the model carries into its core is what
    the equilibrium solver holds.  Take two runs of a model [Thermo.setup]
    built that agree on [b0], [T] and [P] and on the outputs the solver
    holds, for a solver whose result depends on the held outputs only
    through their values.  Whatever else the two models held before (stale
    properties, stale values inside the property group), the solver and
    the property group receive the same inputs in both runs and leave the
    same outputs. *)
Theorem Thermo_state_is_in_the_solver :
  ∀ (value : Type) (compute : System → gmap string value → gmap string value)
    (solve : System → gmap string value → (string → option value)
             → gmap string value)
    (mk : pyval → pyval → ThermoData) options g s_eq s_props
    (env1 env2 : @Env value),
    built (Thermo_setup mk options) = Ok g →
    find_subsystem g "thermo_TP" = Some s_eq →
    find_subsystem g "props" = Some s_props →
    (∀ s inputs held1 held2,
       (∀ o, held1 o = held2 o) → solve s inputs held1 = solve s inputs held2) →
    env1 "b0" = env2 "b0" →
    env1 "T" = env2 "T" →
    env1 "P" = env2 "P" →
    (∀ o, held_outputs s_eq env1 o = held_outputs s_eq env2 o) →
    stage_inputs compute solve g env1 "thermo_TP"
      = stage_inputs compute solve g env2 "thermo_TP" ∧
    stage_outputs compute solve g env1 s_eq
      = stage_outputs compute solve g env2 s_eq ∧
    stage_inputs compute solve g env1 "props"
      = stage_inputs compute solve g env2 "props" ∧
    stage_outputs compute solve g (run_stage compute solve g env1 s_eq) s_props
      = stage_outputs compute solve g (run_stage compute solve g env2 s_eq)
          s_props.
Proof.
  intros value compute solve mk options g s_eq s_props env1 env2
    [cea ->]%built_Thermo_inv [= <-] [= <-] Hsolve Hb0 HT HP Hheld.
  exact (model_agree compute solve cea (opt_fl_name options) env1 env2
           Hsolve Hb0 HT HP Hheld).
Qed.

Lemma Thermo_state_is_in_the_solver_witness :
  stage_inputs b0_as_rhs_P keeps_held_n main_group (scenario_env b0_main) "props"
    = stage_inputs b0_as_rhs_P keeps_held_n main_group stale_env "props" ∧
  (stage_inputs b0_as_rhs_P keeps_held_n main_group stale_env "props"
     ≫= (.!! "n")) = scenario_env b0_main "n" ∧
  scenario_env b0_main "gamma" ≠ stale_env "gamma".
Proof.
  assert (H : built (Thermo_setup co2_co_o2_Thermo (main_options "CEA"))
              = Ok main_group) by (vm_compute; reflexivity).
  split; [|split; [vm_compute; reflexivity | discriminate]].
  refine (proj1 (proj2 (proj2
    (Thermo_state_is_in_the_solver (list Q) b0_as_rhs_P keeps_held_n
       co2_co_o2_Thermo _ main_group _ _ (scenario_env b0_main) stale_env
       H eq_refl eq_refl _ eq_refl eq_refl eq_refl _)))).
  - intros s inputs held1 held2 Hheld. unfold keeps_held_n.
    by rewrite (Hheld "n").
  - intros o. unfold held_outputs. cbn [promotes_outputs sub_name].
    case_bool_decide as Ho; [|reflexivity].
    repeat (apply elem_of_cons in Ho as [->|Ho]; [reflexivity|]).
    by apply elem_of_nil in Ho.
Defined.
